(** * Rubric scorer for self-introduction transcripts: model of
    [evaluate_intro.py] and the properties of its evaluators.

    Conventions of the embedding.
    - A Python [str] is a [string]; a character is a code point below 256, so
      [lower], [isspace] and the regular-expression classes are the Unicode
      ones restricted to that range.
    - A Python [int] is a [Z] (indices, scores, weights) or a [nat] (lengths).
    - A Python [float] is an exact rational [Q] kept in reduced form: the
      rounding of the float operations is not modelled, so a value that sits
      on a band edge or a rounding tie may differ from the one the
      interpreter computes.  The inputs the theorems evaluate are such that
      the branch taken does not depend on that rounding, and the conversion
      of an [int] too large for a float raises as it does in Python.
    - A raised exception is the [Raise] case of [result]; a function whose
      body can end without a [return] yields an [option]. *)

From Stdlib Require Import Bool Arith ZArith QArith Qround Qfield Lia Lqa List.
From Stdlib Require Import Ascii String.
Import ListNotations.

Open Scope string_scope.
Open Scope Z_scope.

(** ** Characters *)

Module Char.

Definition code (c : ascii) : nat := nat_of_ascii c.

Definition between (lo hi : nat) (c : ascii) : bool :=
  (lo <=? code c)%nat && (code c <=? hi)%nat.

(** [str.isspace] on one character. *)
Definition isspace (c : ascii) : bool :=
  between 9 13 c || between 28 32 c
  || (code c =? 133)%nat || (code c =? 160)%nat.

Definition is_upper_az (c : ascii) : bool := between 65 90 c.
Definition is_lower_az (c : ascii) : bool := between 97 122 c.

(** the decimal digits, the class [\d] *)
Definition isdecimal (c : ascii) : bool := between 48 57 c.

(** [str.isalpha] on one character *)
Definition isalpha (c : ascii) : bool :=
  is_upper_az c || is_lower_az c
  || (code c =? 170)%nat || (code c =? 181)%nat || (code c =? 186)%nat
  || between 192 214 c || between 216 246 c || between 248 255 c.

(** superscript digits and vulgar fractions count as numeric *)
Definition isnumeric_extra (c : ascii) : bool :=
  (code c =? 178)%nat || (code c =? 179)%nat || (code c =? 185)%nat
  || between 188 190 c.

(** the class [\w]: alphanumeric or underscore *)
Definition isword (c : ascii) : bool :=
  isalpha c || isdecimal c || isnumeric_extra c || (code c =? 95)%nat.

(** [str.lower] on one character *)
Definition lower (c : ascii) : ascii :=
  if is_upper_az c || between 192 214 c || between 216 222 c
  then ascii_of_nat (code c + 32)
  else c.

End Char.

(** ** Strings as the source uses them *)

Module Str.

Definition chars (s : string) : list ascii := list_ascii_of_string s.
Definition of_chars (l : list ascii) : string := string_of_list_ascii l.

Definition lower (s : string) : string :=
  of_chars (map Char.lower (chars s)).

Fixpoint lstrip (l : list ascii) : list ascii :=
  match l with
  | c :: l' => if Char.isspace c then lstrip l' else l
  | [] => []
  end.

Definition strip_chars (l : list ascii) : list ascii :=
  rev (lstrip (rev (lstrip l))).

(** [s.strip()] *)
Definition strip (s : string) : string := of_chars (strip_chars (chars s)).

(** truth value of a string: non-empty *)
Definition truthy (s : string) : bool :=
  match s with EmptyString => false | _ => true end.

(** [s.split(sep)] for a one-character separator: the pieces between the
    separators, empty ones included. *)
Fixpoint split_char_aux (sep : ascii) (cur : list ascii) (l : list ascii)
  : list string :=
  match l with
  | [] => [of_chars (rev cur)]
  | c :: l' =>
      if Ascii.eqb c sep
      then of_chars (rev cur) :: split_char_aux sep [] l'
      else split_char_aux sep (c :: cur) l'
  end.

Definition split_char (sep : ascii) (s : string) : list string :=
  split_char_aux sep [] (chars s).

(** [s.split()]: the maximal runs of non-whitespace characters. *)
Fixpoint split_ws_aux (cur : list ascii) (l : list ascii) : list string :=
  match l with
  | [] => match cur with [] => [] | _ => [of_chars (rev cur)] end
  | c :: l' =>
      if Char.isspace c
      then match cur with
           | [] => split_ws_aux [] l'
           | _ => of_chars (rev cur) :: split_ws_aux [] l'
           end
      else split_ws_aux (c :: cur) l'
  end.

Definition split (s : string) : list string := split_ws_aux [] (chars s).

Fixpoint starts_with (p l : list ascii) : bool :=
  match p, l with
  | [], _ => true
  | _ :: _, [] => false
  | a :: p', b :: l' => Ascii.eqb a b && starts_with p' l'
  end.

(** [s.find(sub)]: the lowest index where [sub] occurs, or -1. *)
Fixpoint find_aux (p l : list ascii) (i : Z) : Z :=
  if starts_with p l then i
  else match l with
       | [] => -1
       | _ :: l' => find_aux p l' (i + 1)
       end.

Definition find (s sub : string) : Z := find_aux (chars sub) (chars s) 0.

(** [s.count(sub)]: the number of non-overlapping occurrences, scanning
    from the left.  [skip] is the number of characters of the last
    occurrence still to be passed over.  (An empty [sub] is not used by the
    source.) *)
Fixpoint count_aux (p l : list ascii) (skip : nat) : nat :=
  match skip with
  | S k => match l with [] => O | _ :: l' => count_aux p l' k end
  | O =>
      if starts_with p l
      then match l with
           | [] => 1%nat
           | _ :: l' => S (count_aux p l' (Nat.pred (List.length p)))
           end
      else match l with [] => O | _ :: l' => count_aux p l' O end
  end.

Definition count (s sub : string) : nat := count_aux (chars sub) (chars s) O.

(** [sep.join(parts)] *)
Fixpoint join (sep : string) (parts : list string) : string :=
  match parts with
  | [] => ""
  | [p] => p
  | p :: rest => p ++ sep ++ join sep rest
  end.

Definition contains_char (c : ascii) (s : string) : bool :=
  existsb (Ascii.eqb c) (chars s).

End Str.

(** ** Regular expressions ([re]): a backtracking matcher

    The patterns of the source use literals, classes, alternation, [?],
    [*], [+], bounded repetition, the word boundary [\b], one capturing
    group and a back-reference to it.  The matcher tries the alternatives in
    the order Python's does (left alternative first, greedy repetition), so
    the first success is the match [re] reports. *)

Module Re.

Inductive regex : Type :=
| Eps : regex
| Chr : ascii -> regex
| Cls : (ascii -> bool) -> regex
| Seq : regex -> regex -> regex
| Alt : regex -> regex -> regex
| Star : regex -> regex
| WordB : regex
| Grp : regex -> regex
| Ref : regex.

(** derived forms *)
Definition Opt (r : regex) : regex := Alt r Eps.
Definition Plus (r : regex) : regex := Seq r (Star r).

Fixpoint lit_chars (l : list ascii) : regex :=
  match l with
  | [] => Eps
  | [c] => Chr c
  | c :: l' => Seq (Chr c) (lit_chars l')
  end.

Definition Lit (s : string) : regex := lit_chars (Str.chars s).

Fixpoint alts (rs : list regex) : regex :=
  match rs with
  | [] => Cls (fun _ => false)
  | [r] => r
  | r :: rs' => Alt r (alts rs')
  end.

Fixpoint seqs (rs : list regex) : regex :=
  match rs with
  | [] => Eps
  | [r] => r
  | r :: rs' => Seq r (seqs rs')
  end.

(** the position of the matcher: the text of group 1 when it is set, the
    character just before the cursor, the text from the cursor on *)
Record pos : Type := mkPos {
  cap : option (list ascii);
  prev : option (ascii);
  rest : list ascii
}.

Definition is_word_opt (o : option ascii) : bool :=
  match o with Some c => Char.isword c | None => false end.

Definition at_boundary (p : pos) : bool :=
  xorb (is_word_opt (prev p)) (is_word_opt (hd_error (rest p))).

Definition step (p : pos) : option (ascii * pos) :=
  match rest p with
  | [] => None
  | c :: l => Some (c, mkPos (cap p) (Some c) l)
  end.

Fixpoint eat (l : list ascii) (p : pos) : option pos :=
  match l with
  | [] => Some p
  | c :: l' =>
      match step p with
      | Some (x, p') => if Ascii.eqb x c then eat l' p' else None
      | None => None
      end
  end.

Definition consumed (p q : pos) : list ascii :=
  firstn (List.length (rest p) - List.length (rest q)) (rest p).

Section Match.
Context {A : Type}.

Fixpoint run (r : regex) (p : pos) (k : pos -> option A) {struct r}
  : option A :=
  match r with
  | Eps => k p
  | Chr c =>
      match step p with
      | Some (x, p') => if Ascii.eqb x c then k p' else None
      | None => None
      end
  | Cls f =>
      match step p with
      | Some (x, p') => if f x then k p' else None
      | None => None
      end
  | Seq r1 r2 => run r1 p (fun p' => run r2 p' k)
  | Alt r1 r2 =>
      match run r1 p k with
      | Some a => Some a
      | None => run r2 p k
      end
  | Star r1 =>
      (fix loop (fuel : nat) (p : pos) {struct fuel} : option A :=
         match fuel with
         | O => k p
         | S fuel' =>
             match run r1 p (fun p' =>
                     if (List.length (rest p') <? List.length (rest p))%nat
                     then loop fuel' p' else None) with
             | Some a => Some a
             | None => k p
             end
         end) (List.length (rest p)) p
  | WordB => if at_boundary p then k p else None
  | Grp r1 =>
      run r1 p (fun p' =>
        k (mkPos (Some (consumed p p')) (prev p') (rest p')))
  | Ref =>
      match cap p with
      | Some g => match eat g p with Some p' => k p' | None => None end
      | None => None
      end
  end.

End Match.

(** the end of the match of [r] that starts at [p], if there is one *)
Definition match_at (r : regex) (p : pos) : option pos :=
  run r (mkPos None (prev p) (rest p)) (fun q => Some q).

(** [re.search(r, s)]: the start index and the text of the leftmost match *)
Fixpoint search_from (r : regex) (pv : option ascii) (l : list ascii) (i : nat)
  : option (nat * list ascii) :=
  match match_at r (mkPos None pv l) with
  | Some q => Some (i, consumed (mkPos None pv l) q)
  | None =>
      match l with
      | [] => None
      | c :: l' => search_from r (Some c) l' (S i)
      end
  end.

Definition search (r : regex) (s : string) : option (nat * list ascii) :=
  search_from r None (Str.chars s) O.

(** truth value of [re.search(r, s)] *)
Definition found (r : regex) (s : string) : bool :=
  match search r s with Some _ => true | None => false end.

(** [m.start()] of [re.search(r, s)], or [None] *)
Definition search_start (r : regex) (s : string) : option Z :=
  match search r s with Some (i, _) => Some (Z.of_nat i) | None => None end.

(** [re.findall(r, s)]: the texts of the non-overlapping matches from the
    left (for the pattern with a group the source takes only the length of
    the list).  [skip] counts the characters of the last match still to
    pass over; the patterns of the source match no empty string. *)
Fixpoint findall_from (r : regex) (pv : option ascii) (l : list ascii)
  (skip : nat) : list string :=
  match skip with
  | S n =>
      match l with
      | [] => []
      | c :: l' => findall_from r (Some c) l' n
      end
  | O =>
      match match_at r (mkPos None pv l) with
      | Some q =>
          let m := consumed (mkPos None pv l) q in
          Str.of_chars m ::
          match l with
          | [] => []
          | c :: l' => findall_from r (Some c) l' (Nat.pred (List.length m))
          end
      | None =>
          match l with
          | [] => []
          | c :: l' => findall_from r (Some c) l' O
          end
      end
  end.

Definition findall (r : regex) (s : string) : list string :=
  findall_from r None (Str.chars s) O.

(** [re.split(r, s)] for a pattern without groups: the pieces of the text
    between the non-overlapping matches, the last piece included.  [cur]
    holds, reversed, the characters of the current piece; [skip] is as in
    [findall_from].  The pattern of the source matches no empty string, and
    an empty match is not split on. *)
Fixpoint split_from (r : regex) (pv : option ascii) (l : list ascii)
  (skip : nat) (cur : list ascii) : list string :=
  match skip with
  | S n =>
      match l with
      | [] => [Str.of_chars (rev cur)]
      | c :: l' => split_from r (Some c) l' n cur
      end
  | O =>
      match l with
      | [] => [Str.of_chars (rev cur)]
      | c :: l' =>
          match match_at r (mkPos None pv l) with
          | Some q =>
              match consumed (mkPos None pv l) q with
              | [] => split_from r (Some c) l' O (c :: cur)
              | _ :: m =>
                  Str.of_chars (rev cur)
                  :: split_from r (Some c) l' (List.length m) []
              end
          | None => split_from r (Some c) l' O (c :: cur)
          end
      end
  end.

Definition split (r : regex) (s : string) : list string :=
  split_from r None (Str.chars s) O [].

(** the classes of the source's patterns *)
Definition digit : regex := Cls Char.isdecimal.
Definition wordc : regex := Cls Char.isword.
Definition space : regex := Cls Char.isspace.

End Re.

(** ** Exceptions and floats *)

Inductive exn : Type :=
| ZeroDivisionError : exn       (* raised by [/] of the evaluators *)
| CapabilityError : exn         (* anything an external library raises *)
| OverflowError : exn.          (* an int too large to convert to a float *)

Inductive result (A : Type) : Type :=
| Ok : A -> result A
| Raise : exn -> result A.

Arguments Ok {A} _.
Arguments Raise {A} _.

Definition bind {A B : Type} (m : result A) (f : A -> result B) : result B :=
  match m with
  | Ok a => f a
  | Raise e => Raise e
  end.

Notation "x <- m ;; k" := (bind m (fun x => k))
  (at level 61, m at next level, right associativity).

(** [try: body / except Exception: handler] *)
Definition try_except {A : Type} (body handler : result A) : result A :=
  match body with
  | Ok a => Ok a
  | Raise _ => handler
  end.

Module Float.

Definition of_Z (z : Z) : Q := inject_Z z.

(** An [int] that meets a float in an operation is converted first; the
    conversion raises when the int is at least [2^1024 - 2^970] in
    magnitude, the point from which it would round to [2^1024]. *)
Definition int_bound : Z := 2 ^ 1024 - 2 ^ 970.

Definition of_int (z : Z) : result Q :=
  if Z.abs z <? int_bound then Ok (inject_Z z) else Raise OverflowError.
Definition of_nat (n : nat) : Q := inject_Z (Z.of_nat n).

Definition mul (a b : Q) : Q := Qred (a * b)%Q.
Definition add (a b : Q) : Q := Qred (a + b)%Q.
Definition sub (a b : Q) : Q := Qred (a - b)%Q.

(** [a / b], which raises on a zero divisor *)
Definition div (a b : Q) : result Q :=
  if Qeq_bool b 0%Q then Raise ZeroDivisionError else Ok (Qred (a / b)%Q).

Definition leb (a b : Q) : bool := Qle_bool a b.
Definition ltb (a b : Q) : bool := negb (Qle_bool b a).
(** the chained comparison [lo <= x <= hi] *)
Definition within (lo x hi : Q) : bool := leb lo x && leb x hi.

Definition min (a b : Q) : Q := if leb a b then a else b.

(** rounding to the nearest integer, ties to the even one *)
Definition round_half_even (q : Q) : Z :=
  let f := Qfloor q in
  let r := (q - inject_Z f)%Q in
  if ltb r (1 # 2)%Q then f
  else if ltb (1 # 2)%Q r then f + 1
  else if Z.even f then f else f + 1.

(** [round(x, 2)] *)
Definition round2 (q : Q) : Q :=
  Qred (inject_Z (round_half_even (q * 100)%Q) / 100)%Q.

End Float.

(** [len(x) or 1] *)
Definition len_or_1 (n : nat) : nat :=
  match n with O => 1%nat | _ => n end.

(** [min] and [max] of a non-empty list of integers *)
Definition min_of (x : Z) (l : list Z) : Z := fold_left Z.min l x.
Definition max_of (x : Z) (l : list Z) : Z := fold_left Z.max l x.

(** ** The tables of the source *)

Import Re.

Definition FILLER_WORDS : list string :=
  [ "um"; "uh"; "like"; "you know"; "so"; "actually"; "basically"; "right";
    "i mean"; "well"; "kinda"; "sort of"; "okay"; "hmm"; "ah" ].

Definition SALUTATION_excellent : list regex :=
  [ seqs [WordB;
          Alt (Seq (Lit "i am ") (Alt (Lit "excited") (Lit "thrilled")))
              (Lit "feeling great");
          WordB] ].

Definition SALUTATION_good : list regex :=
  [ seqs [WordB; Lit "good ";
          alts [Lit "morning"; Lit "afternoon"; Lit "evening"; Lit "day"];
          WordB];
    seqs [WordB; Lit "hello everyone"; WordB] ].

Definition SALUTATION_normal : list regex :=
  [ seqs [WordB; Lit "hi"; WordB]; seqs [WordB; Lit "hello"; WordB] ].

Definition word_pat (s : string) : regex := seqs [WordB; Lit s; WordB].

(** [\d{1,2}\s*years?\s*old] *)
Definition age_core : regex :=
  seqs [digit; Opt digit; Star space; Lit "year"; Opt (Chr "s"); Star space;
        Lit "old"].

Definition MUST_HAVE_KEYS : list (string * list regex) :=
  [ ("name", [word_pat "my name is"; word_pat "myself"; word_pat "i am"]);
    ("age", [seqs [WordB; age_core; WordB]]);
    ("school_class",
       [seqs [WordB; Lit "class"; Plus space; Plus wordc; WordB];
        word_pat "school"]);
    ("family",
       [word_pat "family"; word_pat "father"; word_pat "mother";
        word_pat "sister"; word_pat "brother"]);
    ("hobbies",
       [seqs [WordB;
              alts [Lit "hobby"; Lit "hobbies"; Lit "like to"; Lit "enjoy";
                    Lit "favorite"; Lit "favourite"];
              WordB]]) ].

(** the class [[- ]] *)
Definition dash_or_space (c : ascii) : bool :=
  Ascii.eqb c "-" || Ascii.eqb c " ".

Definition GOOD_TO_HAVE_KEYS : list (string * list regex) :=
  [ ("about_family",
       [seqs [WordB;
              Alt (seqs [Lit "kind"; Opt (Cls dash_or_space); Lit "hearted"])
                  (seqs [Lit "soft"; Opt (Cls dash_or_space); Lit "spoken"]);
              WordB]]);
    ("origin_location",
       [word_pat "i am from"; word_pat "we are from";
        word_pat "parents are from"]);
    ("ambition_goal",
       [seqs [WordB;
              alts [Lit "ambition"; Lit "goal"; Lit "dream"; Lit "aspiration"];
              WordB]]);
    ("interesting_unique",
       [seqs [WordB; alts [Lit "fun fact"; Lit "unique"; Lit "interesting"];
              WordB]]);
    ("strengths_achievements",
       [seqs [WordB;
              alts [Lit "strength"; Lit "achievement"; Lit "award";
                    Lit "ranked"; Lit "won"];
              WordB]]) ].

(** ** Text normalisation *)

(** the class [[A-Za-z']] *)
Definition letter_or_apostrophe (c : ascii) : bool :=
  Char.is_upper_az c || Char.is_lower_az c || Ascii.eqb c "'".

Definition word_list (text : string) : list string :=
  findall (Plus (Cls letter_or_apostrophe)) (Str.lower text).

(** the class [[.!?]] *)
Definition sentence_mark (c : ascii) : bool :=
  Ascii.eqb c "." || Ascii.eqb c "!" || Ascii.eqb c "?".

(** [[.!?]\s+] *)
Definition sentence_end : regex := Seq (Cls sentence_mark) (Plus space).

Definition tokenize_sentences (text : string) : list string :=
  let parts := Re.split sentence_end (Str.strip text) in
  map Str.strip (filter (fun p => Str.truthy (Str.strip p)) parts).

(** ** The criterion records and the report *)

Record CriterionResult : Type := mkCriterion {
  name : string;
  weight : Z;
  score : Z;
  feedback : string
}.

Record ScoreReport : Type := mkReport {
  overall_score : Q;
  words : nat;
  sentences : nat;
  wpm : Q;
  criteria : list CriterionResult
}.

(** ** The aggregator, [score_transcript] *)

(** [not duration_sec]: true for [None] and for a zero *)
Definition not_duration (duration_sec : option Q) : bool :=
  match duration_sec with
  | None => true
  | Some q => Qeq_bool q 0%Q
  end.

(** the ["wpm"] entry of the report:
    [120.0 if not duration_sec else round((words / duration_sec) * 60.0, 2)] *)
Definition report_wpm (words : nat) (duration_sec : option Q) : result Q :=
  if not_duration duration_sec then Ok 120%Q
  else match duration_sec with
       | Some dur =>
           q <- Float.div (Float.of_nat words) dur ;;
           Ok (Float.round2 (Float.mul q 60))
       | None => Ok 120%Q
       end.

Definition score_transcript (transcript : string) (duration_sec : option Q)
  : result ScoreReport :=
  let words := List.length (Str.split transcript) in
  let sentences :=
    List.length (filter (fun p => Str.truthy (Str.strip p))
                        (Str.split_char "." transcript)) in
  let salutation_score := 4 in
  let keyword_score := 24 in
  let flow_score := 5 in
  let speech_rate_score := 10 in
  let grammar_score := 8 in
  let vocabulary_score := 6 in
  let filler_score := 12 in
  let sentiment_score := 12 in
  w1 <- Float.div 5 5 ;;
  w2 <- Float.div 30 30 ;;
  w3 <- Float.div 5 5 ;;
  w4 <- Float.div 10 10 ;;
  w5 <- Float.div 10 10 ;;
  w6 <- Float.div 10 10 ;;
  w7 <- Float.div 15 15 ;;
  w8 <- Float.div 15 15 ;;
  let term (sc : Z) (wt : Q) := Float.mul (Float.of_Z sc) wt in
  let overall :=
    fold_left Float.add
      [ term keyword_score w2; term flow_score w3;
        term speech_rate_score w4; term grammar_score w5;
        term vocabulary_score w6; term filler_score w7;
        term sentiment_score w8 ]
      (term salutation_score w1) in
  wpm_value <- report_wpm words duration_sec ;;
  Ok {| overall_score := Float.round2 overall;
        words := words;
        sentences := sentences;
        wpm := wpm_value;
        criteria :=
          [ mkCriterion "Salutation Level" 5 salutation_score
              "Detected greeting";
            mkCriterion "Keyword Presence" 30 keyword_score
              "Basic details found";
            mkCriterion "Flow Order" 5 flow_score "Logical order followed";
            mkCriterion "Speech Rate (WPM)" 10 speech_rate_score "Ideal rate";
            mkCriterion "Grammar" 10 grammar_score "Minor errors";
            mkCriterion "Vocabulary Richness" 10 vocabulary_score
              "Moderate diversity";
            mkCriterion "Filler Word Rate" 15 filler_score "Few filler words";
            mkCriterion "Sentiment/Positivity" 15 sentiment_score
              "Positive tone" ] |}.

(** ** The evaluators *)

Definition any_found (pats : list regex) (t : string) : bool :=
  existsb (fun pat => found pat t) pats.

Definition compute_salutation_score (text : string) : Z * string :=
  let t := Str.strip (Str.lower text) in
  if any_found SALUTATION_excellent t then (5, "Excellent salutation detected.")
  else if any_found SALUTATION_good t then (4, "Good salutation detected.")
  else if any_found SALUTATION_normal t then (2, "Normal salutation detected.")
  else (0, "No salutation found.").

(** one of the two loops of [compute_keyword_presence]: the points gained
    and the flags, in the order of the table *)
Definition scan_keys (points : Z) (keys : list (string * list regex))
  (t : string) : Z * list (string * bool) :=
  fold_left
    (fun (acc : Z * list (string * bool)) (entry : string * list regex) =>
       let present := any_found (snd entry) t in
       ((if present then fst acc + points else fst acc),
        (snd acc ++ [(fst entry, present)])%list))
    keys (0, []).

Definition must_have (text : string) : Z * list (string * bool) :=
  scan_keys 4 MUST_HAVE_KEYS (Str.lower text).

Definition good_have (text : string) : Z * list (string * bool) :=
  scan_keys 2 GOOD_TO_HAVE_KEYS (Str.lower text).

Definition compute_keyword_presence (text : string)
  : Z * list (string * bool) * list (string * bool) :=
  let must_have_score := fst (must_have text) in
  let good_have_score := fst (good_have text) in
  let total := must_have_score + good_have_score in
  (total, snd (must_have text), snd (good_have text)).

(** the value a flag mapping holds for a key *)
Definition flag (key : string) (flags : list (string * bool)) : option bool :=
  match List.find (fun e => String.eqb (fst e) key) flags with
  | Some e => Some (snd e)
  | None => None
  end.

(** the indices [compute_order_flow] works with *)
Record flow_indices : Type := mkFlow {
  idx_sal : Z;
  idx_name : Z;
  idx_school : Z;
  idx_class : Z;
  idx_age : option Z;
  idx_place : Z;
  idx_additional : Z;
  idx_close : Z
}.

Definition order_flow_indices (text : string) : flow_indices :=
  let t := Str.lower text in
  {| idx_sal :=
       min_of (Str.find t "hello everyone")
              [Str.find t "hello "; Str.find t "hi "];
     idx_name :=
       min_of (Str.find t "my name is")
              [Str.find t "myself "; Str.find t "i am "];
     idx_school := Str.find t "school";
     idx_class := Str.find t "class";
     idx_age := search_start age_core t;
     idx_place := max_of (Str.find t "i am from") [Str.find t "parents are from"];
     idx_additional :=
       max_of (Str.find t "fun fact")
              [Str.find t "unique"; Str.find t "interesting";
               Str.find t "enjoy"; Str.find t "favorite";
               Str.find t "favourite"];
     idx_close := Str.find t "thank you" |}.

Definition basic_idxs (ix : flow_indices) : list Z :=
  filter (fun i => 0 <=? i)
    [ idx_name ix;
      match idx_age ix with Some i => i | None => -1 end;
      idx_school ix; idx_class ix; idx_place ix ].

Definition compute_order_flow (text : string) : Z * string :=
  let ix := order_flow_indices text in
  match basic_idxs ix with
  | b :: bs =>
      if (0 <=? idx_sal ix) && (0 <=? idx_additional ix)
         && (0 <=? idx_close ix)
      then
        let valid :=
          (idx_sal ix <=? min_of b bs)
          && (min_of b bs <=? idx_additional ix)
          && (idx_additional ix <=? idx_close ix) in
        ((if valid then 5 else 0),
         (if valid then "Order followed." else "Order not followed."))
      else (0, "Order not followed.")
  | [] => (0, "Order not followed.")
  end.

Definition compute_speech_rate (words : Z) (duration_sec : option Q)
  : result (Z * Q * string) :=
  match duration_sec with
  | None => Ok (10, 120%Q, "Duration not provided; assumed ideal speech rate.")
  | Some dur =>
      if Float.leb dur 0
      then Ok (10, 120%Q, "Duration not provided; assumed ideal speech rate.")
      else
        w <- Float.of_int words ;;
        q <- Float.div w dur ;;
        let wpm := Float.mul q 60 in
        if Float.ltb 161 wpm then Ok (2, wpm, "Too fast.")
        else if Float.within 141 wpm 160 then Ok (6, wpm, "Fast.")
        else if Float.within 111 wpm 140 then Ok (10, wpm, "Ideal.")
        else if Float.within 81 wpm 110 then Ok (6, wpm, "Slow.")
        else Ok (2, wpm, "Too slow.")
  end.

(** *** The external capabilities

    The grammar checker and the lexical-richness library are not part of
    the program; every call into them may return or raise. *)

Record capabilities : Type := mkCaps {
  LT_AVAILABLE : bool;
  lt_tool : Type;
  lt_match : Type;
  LanguageTool : string -> result lt_tool;
  lt_check : lt_tool -> string -> result (list lt_match);
  lex_t : Type;
  LexicalRichness : string -> result lex_t;
  lex_ttr : lex_t -> result Q
}.

(** [\s{2,}] *)
Definition spaces_2_or_more : regex := seqs [space; space; Star space].

(** [\b(\w+)\s+\1\b] *)
Definition repeated_word : regex :=
  seqs [WordB; Grp (Plus wordc); Plus space; Ref; WordB].

Definition heuristic_errors (text : string) : nat :=
  (List.length (findall spaces_2_or_more text)
   + List.length (findall repeated_word (Str.lower text)))%nat.

(** the five bands shared by grammar and vocabulary, after the first test *)
Definition lower_bands (x : Q) (s8 s6 s4 s2 : string) : Z * Q * string :=
  if Float.within (7 # 10) x (89 # 100) then (8, x, s8)
  else if Float.within (5 # 10) x (69 # 100) then (6, x, s6)
  else if Float.within (3 # 10) x (49 # 100) then (4, x, s4)
  else (2, x, s2).

Section Evaluators.

Variable caps : capabilities.

(** the error count: the grammar checker's when it was imported, the
    heuristic's otherwise *)
Definition count_errors (text : string) : result nat :=
  if LT_AVAILABLE caps
  then
    tool <- LanguageTool caps "en-US" ;;
    matches <- lt_check caps tool text ;;
    Ok (List.length matches)
  else Ok (heuristic_errors text).

(** the body of the [try] of [compute_grammar_score] *)
Definition grammar_try (text : string) (words : nat) : result Q :=
  errors <- count_errors text ;;
  q <- Float.div (Float.of_nat errors) (Float.of_nat words) ;;
  let errors_per_100 := Float.mul q 100 in
  q10 <- Float.div errors_per_100 10 ;;
  Ok (Float.sub 1 (Float.min q10 1)).

Definition grammar_bands (raw : Q) : Z * Q * string :=
  if Float.ltb (9 # 10) raw then (10, raw, "Excellent grammar.")
  else lower_bands raw "Good grammar." "Fair grammar." "Poor grammar."
         "Very poor grammar.".

Definition compute_grammar_score (text : string) : result (Z * Q * string) :=
  let words := len_or_1 (List.length (word_list text)) in
  raw <- try_except (grammar_try text words) (Ok (7 # 10)%Q) ;;
  Ok (grammar_bands raw).

(** the body of the [except] of [compute_ttr_score] *)
Definition ttr_fallback (text : string) : result Q :=
  let wl := word_list text in
  let distinct := List.length (nodup string_dec wl) in
  let total := len_or_1 (List.length wl) in
  Float.div (Float.of_nat distinct) (Float.of_nat total).

Definition ttr_bands (ttr : Q) : Z * Q * string :=
  if Float.within (9 # 10) ttr 1 then (10, ttr, "Excellent lexical diversity.")
  else lower_bands ttr "Good lexical diversity." "Fair lexical diversity."
         "Poor lexical diversity." "Very poor lexical diversity.".

Definition compute_ttr_score (text : string) : result (Z * Q * string) :=
  lex <- LexicalRichness caps text ;;
  ttr <- try_except (lex_ttr caps lex) (ttr_fallback text) ;;
  Ok (ttr_bands ttr).

End Evaluators.

(** *** Filler words *)

Definition is_filler (w : string) : bool :=
  existsb (String.eqb w) FILLER_WORDS.

(** the first loop: occurrences of the fillers that contain a space *)
Definition phrase_count (t_lower : string) : nat :=
  fold_left
    (fun count fw =>
       if Str.contains_char " " fw then (count + Str.count t_lower fw)%nat
       else count)
    FILLER_WORDS O.

(** the second loop: tokens that are fillers *)
Definition token_count (wl : list string) : nat :=
  List.length (filter is_filler wl).

Definition filler_count (text : string) : nat :=
  let wl := word_list text in
  (phrase_count (Str.join " " wl) + token_count wl)%nat.

(** [rate = (count / total) * 100.0] *)
Definition filler_rate (text : string) : result Q :=
  let total := len_or_1 (List.length (word_list text)) in
  q <- Float.div (Float.of_nat (filler_count text)) (Float.of_nat total) ;;
  Ok (Float.mul q 100).

(** The function has one [return], under [if 0 <= rate <= 3]; on the other
    path the body ends and the call yields [None]. *)
Definition compute_filler_rate_score (text : string)
  : result (option (Z * Q * string)) :=
  rate <- filler_rate text ;;
  if Float.within 0 rate 3 then Ok (Some (15, rate, "Clear"))
  else Ok None.

(** ** The caller, [app.py]

    The page reads a transcript and a duration and, on "Score", calls the
    aggregator; the widgets themselves are outside the model. *)

(** [dur = None if duration <= 0 else duration] *)
Definition app_duration (duration : Q) : option Q :=
  if Float.leb duration 0 then None else Some duration.

(** [result = score_transcript(transcript, dur)] *)
Definition app_score (transcript : string) (duration : Q)
  : result ScoreReport :=
  score_transcript transcript (app_duration duration).

(** ** Inputs and notions used in the statements *)

Definition placeholder_criteria : list CriterionResult :=
  [ mkCriterion "Salutation Level" 5 4 "Detected greeting";
    mkCriterion "Keyword Presence" 30 24 "Basic details found";
    mkCriterion "Flow Order" 5 5 "Logical order followed";
    mkCriterion "Speech Rate (WPM)" 10 10 "Ideal rate";
    mkCriterion "Grammar" 10 8 "Minor errors";
    mkCriterion "Vocabulary Richness" 10 6 "Moderate diversity";
    mkCriterion "Filler Word Rate" 15 12 "Few filler words";
    mkCriterion "Sentiment/Positivity" 15 12 "Positive tone" ].

Definition sum_Z (l : list Z) : Z := fold_right Z.add 0 l.

Definition count_true (flags : list (string * bool)) : Z :=
  Z.of_nat (List.length (filter (fun e => snd e) flags)).

Definition asha_text : string :=
  "my name is Asha, I am 10 years old, I study in Class 5, I love painting".

Definition ordered_intro : string :=
  "Hello everyone, my name is Asha and I am 10 years old. A fun fact about me is that I love chess. Thank you".

Definition no_duration_result : Z * Q * string :=
  (10, 120%Q, "Duration not provided; assumed ideal speech rate.").

(** capabilities whose grammar checker fails to start and whose
    lexical-richness constructor raises *)
Definition failing_caps : capabilities :=
  {| LT_AVAILABLE := true;
     lt_tool := unit;
     lt_match := unit;
     LanguageTool := fun _ => Raise CapabilityError;
     lt_check := fun _ _ => Ok [];
     lex_t := unit;
     LexicalRichness := fun _ => Raise CapabilityError;
     lex_ttr := fun _ => Ok 1%Q |}.

Definition hundred_words : string :=
  "um uh" ++ String.concat "" (repeat " cat" 98).

Definition no_must_flags : list (string * bool) :=
  [ ("name", false); ("age", false); ("school_class", false);
    ("family", false); ("hobbies", false) ].

Definition no_good_flags : list (string * bool) :=
  [ ("about_family", false); ("origin_location", false);
    ("ambition_goal", false); ("interesting_unique", false);
    ("strengths_achievements", false) ].

(** ** Notions used by the further properties *)

(** the loop of [run] on [Star (Cls f)], named *)
Section ClsLoop.
Variable f : ascii -> bool.

Fixpoint cls_loop (fuel : nat) (p : pos) : option pos :=
  match fuel with
  | O => Some p
  | S fuel' =>
      match
        match step p with
        | Some (x, p') =>
            if f x
            then if (List.length (rest p') <? List.length (rest p))%nat
                 then cls_loop fuel' p' else None
            else None
        | None => None
        end
      with
      | Some a => Some a
      | None => Some p
      end
  end.

End ClsLoop.

Definition token_char (c : ascii) : bool :=
  Char.is_lower_az c || Ascii.eqb c "'".

Definition space_or_dot (c : ascii) : bool :=
  Char.isspace c || Ascii.eqb c ".".

Definition sentence_pieces (l cur : list ascii) : list string :=
  filter (fun p => Str.truthy (Str.strip p)) (Str.split_char_aux "." cur l).

Definition no_sentence_mark (text : string) : Prop :=
  Forall (fun c => sentence_mark c = false) (Str.chars text).

Definition all_markers_intro : string :=
  "hi hello everyone my name is x myself i am 9 years old fun fact thank you".

Definition heuristic_caps : capabilities :=
  {| LT_AVAILABLE := false;
     lt_tool := unit;
     lt_match := unit;
     LanguageTool := fun _ => Raise CapabilityError;
     lt_check := fun _ _ => Ok [];
     lex_t := unit;
     LexicalRichness := fun _ => Ok tt;
     lex_ttr := fun _ => Raise ZeroDivisionError |}.

(** a checker that reports one error *)
Definition one_error_caps : capabilities :=
  {| LT_AVAILABLE := true;
     lt_tool := unit;
     lt_match := unit;
     LanguageTool := fun _ => Ok tt;
     lt_check := fun _ _ => Ok [tt];
     lex_t := unit;
     LexicalRichness := fun _ => Ok tt;
     lex_ttr := fun _ => Raise ZeroDivisionError |}.

(** * Properties *)

(** ** Helper facts on the float model *)

Lemma div_ok (a b : Q) : ~ (b == 0)%Q -> Float.div a b = Ok (Qred (a / b)).
Proof.
  intros Hb. unfold Float.div.
  destruct (Qeq_bool b 0) eqn:E; [|reflexivity].
  apply Qeq_bool_iff in E. contradiction.
Qed.

Lemma of_int_ok (z : Z) :
  Z.abs z < Float.int_bound -> Float.of_int z = Ok (inject_Z z).
Proof.
  intros H. unfold Float.of_int.
  destruct (Z.abs z <? Float.int_bound) eqn:E; [reflexivity|].
  apply Z.ltb_ge in E. lia.
Qed.

Lemma of_int_raises (z : Z) (e : exn) :
  Float.of_int z = Raise e -> e = OverflowError /\ Float.int_bound <= Z.abs z.
Proof.
  unfold Float.of_int.
  destruct (Z.abs z <? Float.int_bound) eqn:E; [discriminate|].
  intros H. injection H as <-. apply Z.ltb_ge in E. auto.
Qed.

Lemma of_nat_nonzero (n : nat) : n <> O -> ~ (Float.of_nat n == 0)%Q.
Proof.
  intros Hn H. unfold Float.of_nat, Qeq in H. simpl in H. lia.
Qed.

Lemma len_or_1_pos (n : nat) : len_or_1 n <> O.
Proof. destruct n; simpl; discriminate. Qed.

Lemma ltb_true (a b : Q) : Float.ltb a b = true <-> (a < b)%Q.
Proof.
  unfold Float.ltb. rewrite negb_true_iff.
  split; intros H.
  - apply Qnot_le_lt. intros Hle. apply Qle_bool_iff in Hle. congruence.
  - destruct (Qle_bool b a) eqn:E; [|reflexivity].
    apply Qle_bool_iff in E. exfalso. exact (Qlt_not_le _ _ H E).
Qed.

Lemma leb_true (a b : Q) : Float.leb a b = true <-> (a <= b)%Q.
Proof. apply Qle_bool_iff. Qed.

(** ** The matcher and the string functions on small inputs *)

Example findall_repeated_word :
  findall repeated_word "the the cat  sat aa a b b b b"
  = ["the the"; "b b"; "b b"].
Proof. vm_compute. reflexivity. Qed.

Example heuristic_errors_example :
  heuristic_errors "The the cat  sat" = 2%nat.
Proof. vm_compute. reflexivity. Qed.

Example word_list_example :
  word_list "Hello, it's ME  me. Um 42 x_y"
  = ["hello"; "it's"; "me"; "me"; "um"; "x"; "y"].
Proof. vm_compute. reflexivity. Qed.

Example split_char_example :
  Str.split_char "." "a.b..c." = ["a"; "b"; ""; "c"; ""].
Proof. reflexivity. Qed.

Example count_example : Str.count "aaaa" "aa" = 2%nat.
Proof. reflexivity. Qed.

Example salutation_good_morning :
  compute_salutation_score "Good morning everyone, my name is Asha"
  = (4, "Good salutation detected.").
Proof. vm_compute. reflexivity. Qed.

Example order_flow_all_markers :
  compute_order_flow
    "hi hello everyone my name is x myself i am 9 years old fun fact thank you"
  = (5, "Order followed.").
Proof. vm_compute. reflexivity. Qed.

Example round2_half_even : Float.round2 (12345 # 1000) = (617 # 50)%Q.
Proof. reflexivity. Qed.

(** ** The aggregator *)

Lemma report_wpm_returns (n : nat) (d : option Q) :
  exists q, report_wpm n d = Ok q.
Proof.
  unfold report_wpm.
  destruct d as [dur|]; simpl; [|eauto].
  destruct (Qeq_bool dur 0) eqn:E; [eauto|].
  unfold Float.div. rewrite E. simpl. eauto.
Qed.

Lemma score_transcript_returns (t : string) (d : option Q) :
  exists rep,
    score_transcript t d = Ok rep
    /\ criteria rep = placeholder_criteria
    /\ overall_score rep = 81%Q
    /\ words rep = List.length (Str.split t)
    /\ report_wpm (List.length (Str.split t)) d = Ok (wpm rep)
    /\ sentences rep
       = List.length (filter (fun p => Str.truthy (Str.strip p))
                             (Str.split_char "." t)).
Proof.
  destruct (report_wpm_returns (List.length (Str.split t)) d) as [q Hq].
  unfold score_transcript. cbn [bind].
  change (Float.div 5 5) with (Ok 1%Q).
  change (Float.div 30 30) with (Ok 1%Q).
  change (Float.div 10 10) with (Ok 1%Q).
  change (Float.div 15 15) with (Ok 1%Q).
  cbn [bind]. rewrite Hq. cbn [bind].
  eexists. split; [reflexivity|].
  cbn [criteria overall_score words wpm sentences].
  repeat split; reflexivity.
Qed.

(** C1 (the code departs from the claim): whatever the transcript and the
    duration, the eight scores of the report are the constants 4, 24, 5, 10,
    8, 6, 12, 12 of the placeholder block, while the evaluators give 0 for
    salutation, keyword presence and flow order on the empty transcript; the
    report is not computed from the evaluators. *)
Theorem score_transcript_scores_are_constants :
  (forall (t : string) (d : option Q),
      exists rep, score_transcript t d = Ok rep
                  /\ map score (criteria rep) = [4; 24; 5; 10; 8; 6; 12; 12])
  /\ fst (compute_salutation_score "") = 0
  /\ fst (fst (compute_keyword_presence "")) = 0
  /\ fst (compute_order_flow "") = 0.
Proof.
  split.
  - intros t d.
    destruct (score_transcript_returns t d) as (rep & Hrep & Hc & _).
    exists rep. split; [exact Hrep|]. rewrite Hc. reflexivity.
  - repeat split; vm_compute; reflexivity.
Qed.

(** C2: for every transcript and duration [score_transcript] returns a
    report with exactly 8 criteria, of weights 5, 30, 5, 10, 10, 10, 15, 15
    that add up to 100; every score is between 0 and its weight; the overall
    score is the sum of the 8 scores rounded to 2 decimals and lies between
    0 and 100. *)
Theorem score_transcript_invariants (t : string) (d : option Q) :
  exists rep,
    score_transcript t d = Ok rep
    /\ List.length (criteria rep) = 8%nat
    /\ map weight (criteria rep) = [5; 30; 5; 10; 10; 10; 15; 15]
    /\ sum_Z (map weight (criteria rep)) = 100
    /\ Forall (fun c => 0 <= score c <= weight c) (criteria rep)
    /\ overall_score rep
       = Float.round2 (Float.of_Z (sum_Z (map score (criteria rep))))
    /\ (0 <= overall_score rep <= 100)%Q.
Proof.
  destruct (score_transcript_returns t d) as (rep & Hrep & Hc & Ho & _).
  exists rep. rewrite Hc, Ho.
  split; [exact Hrep|].
  split; [reflexivity|].
  split; [reflexivity|].
  split; [reflexivity|].
  split.
  - unfold placeholder_criteria.
    repeat (constructor; [cbn; lia|]). constructor.
  - split; [reflexivity|].
    split; unfold Qle; simpl; lia.
Qed.

(** ** Keyword presence *)

Lemma scan_keys_points_gen (points : Z) (t : string)
  (keys : list (string * list regex)) (acc : Z * list (string * bool)) :
  let step := fun (acc : Z * list (string * bool))
                  (entry : string * list regex) =>
       let present := any_found (snd entry) t in
       ((if present then fst acc + points else fst acc),
        (snd acc ++ [(fst entry, present)])%list) in
  fst acc = points * count_true (snd acc) ->
  fst (fold_left step keys acc)
  = points * count_true (snd (fold_left step keys acc)).
Proof.
  intros step. revert acc.
  induction keys as [|entry keys IH]; intros acc Hacc; [exact Hacc|].
  simpl. apply IH.
  unfold step at 1 2. cbn [fst snd].
  unfold count_true in *. rewrite filter_app, length_app.
  destruct (any_found (snd entry) t); simpl; lia.
Qed.

(** each true flag is worth [points], each false one nothing *)
Lemma scan_keys_points (points : Z) (keys : list (string * list regex))
  (t : string) :
  fst (scan_keys points keys t)
  = points * count_true (snd (scan_keys points keys t)).
Proof.
  unfold scan_keys. apply scan_keys_points_gen.
  unfold count_true. simpl. lia.
Qed.

(** C3, as stated, fails: on the quoted text the flag of hobbies is false,
    no pattern of that key matching "I love painting". *)
Lemma keyword_presence_asha_hobbies_not_true :
  ~ (let must_flags := snd (fst (compute_keyword_presence asha_text)) in
     flag "name" must_flags = Some true
     /\ flag "age" must_flags = Some true
     /\ flag "school_class" must_flags = Some true
     /\ flag "hobbies" must_flags = Some true
     /\ flag "family" must_flags = Some false).
Proof.
  vm_compute. intros (_ & _ & _ & H & _). discriminate H.
Qed.

(** C3, amended: on the quoted text the must-have flags are true for name,
    age and school_class and false for family and hobbies, and the must-have
    part of the score is 4 for each true flag and 0 for each false one, 12
    here, which is also the total as no good-to-have key is present. *)
Theorem keyword_presence_asha :
  snd (fst (compute_keyword_presence asha_text))
  = [ ("name", true); ("age", true); ("school_class", true);
      ("family", false); ("hobbies", false) ]
  /\ fst (must_have asha_text)
     = 4 * count_true (snd (fst (compute_keyword_presence asha_text)))
  /\ fst (must_have asha_text) = 12
  /\ fst (fst (compute_keyword_presence asha_text)) = 12.
Proof.
  split; [vm_compute; reflexivity|].
  split; [apply (scan_keys_points 4 MUST_HAVE_KEYS)|].
  split; vm_compute; reflexivity.
Qed.

(** ** Flow order *)

(** the score is 5 exactly when the four indices the code computes are
    present and in non-decreasing order *)
Lemma compute_order_flow_5_iff (text : string) :
  let ix := order_flow_indices text in
  fst (compute_order_flow text) = 5
  <-> exists b bs,
        basic_idxs ix = b :: bs
        /\ 0 <= idx_sal ix /\ 0 <= idx_additional ix /\ 0 <= idx_close ix
        /\ idx_sal ix <= min_of b bs <= idx_additional ix
        /\ idx_additional ix <= idx_close ix.
Proof.
  intros ix. unfold compute_order_flow. fold ix.
  destruct (basic_idxs ix) as [|b bs].
  - simpl. split; [discriminate|]. intros (b & bs & H & _). discriminate H.
  - destruct (0 <=? idx_sal ix) eqn:E1; destruct (0 <=? idx_additional ix) eqn:E2;
      destruct (0 <=? idx_close ix) eqn:E3;
      destruct (idx_sal ix <=? min_of b bs) eqn:E4;
      destruct (min_of b bs <=? idx_additional ix) eqn:E5;
      destruct (idx_additional ix <=? idx_close ix) eqn:E6;
      cbn [andb fst];
      (split;
       [ try discriminate; intros _; exists b, bs; repeat split; lia
       | intros (b' & bs' & Hb & H); injection Hb as <- <-;
         try reflexivity; exfalso; lia ]).
Qed.

(** C4 (the code departs from the claim): in [ordered_intro] the greeting
    comes first (index 0), then the name (16) and the age (41), then "fun
    fact" (57), then "thank you" (97); yet the salutation index is the
    minimum of three searches one of which, for "hi ", finds nothing and
    gives -1, so the index is -1 and the score is 0. *)
Theorem order_flow_ordered_intro_scores_0 :
  let t := Str.lower ordered_intro in
  Str.find t "hello everyone" = 0
  /\ Str.find t "my name is" = 16
  /\ search_start age_core t = Some 41
  /\ Str.find t "fun fact" = 57
  /\ Str.find t "thank you" = 97
  /\ Str.find t "hi " = -1
  /\ idx_sal (order_flow_indices ordered_intro) = -1
  /\ compute_order_flow ordered_intro = (0, "Order not followed.").
Proof.
  repeat split; vm_compute; reflexivity.
Qed.

(** ** Speech rate *)

(** an absent or non-positive duration gives the assumed ideal rate *)
Lemma compute_speech_rate_no_duration (words : Z) (d : option Q) :
  match d with None => True | Some dur => (dur <= 0)%Q end ->
  compute_speech_rate words d = Ok no_duration_result.
Proof.
  destruct d as [dur|]; simpl; [|reflexivity].
  intros H. apply leb_true in H. rewrite H. reflexivity.
Qed.

Lemma positive_not_zero (dur : Q) :
  Float.leb dur 0 = false -> ~ (dur == 0)%Q.
Proof.
  intros E H0. unfold Float.leb in E.
  assert (Qle_bool dur 0 = true) as H1
      by (apply Qle_bool_iff; rewrite H0; apply Qle_refl).
  congruence.
Qed.

(** the evaluator returns for every word count a float can hold *)
Lemma compute_speech_rate_returns (words : Z) (d : option Q) :
  Z.abs words < Float.int_bound ->
  exists r, compute_speech_rate words d = Ok r.
Proof.
  intros Hw. destruct d as [dur|]; simpl; [|eauto].
  destruct (Float.leb dur 0) eqn:E; [eauto|].
  rewrite (of_int_ok words Hw). cbn [bind].
  rewrite div_ok by (apply positive_not_zero, E).
  cbn [bind].
  repeat match goal with
         | |- context [if ?b then _ else _] => destruct b
         end; eauto.
Qed.

(** C5 (the code departs from the claim): 171 words in 64 seconds are
    160.3125 words per minute, which is above 80 and yet reaches the last
    branch: score 2, "Too slow.".  The values 150 and 125 fall in the bands
    the claim names. *)
Theorem compute_speech_rate_gap_is_too_slow :
  compute_speech_rate 171 (Some 64%Q) = Ok (2, (2565 # 16)%Q, "Too slow.")
  /\ (80 < 2565 # 16)%Q
  /\ compute_speech_rate 150 (Some 60%Q) = Ok (6, 150%Q, "Fast.")
  /\ compute_speech_rate 125 (Some 60%Q) = Ok (10, 125%Q, "Ideal.").
Proof.
  repeat split; vm_compute; reflexivity.
Qed.

(** C6 (the code departs from the claim): for the duration -1 the
    speech-rate evaluator gives the assumed ideal rate, but the report's wpm
    is computed by the division: -60 for a one-word transcript. *)
Theorem score_transcript_wpm_negative_duration :
  compute_speech_rate 1 (Some (-1)%Q) = Ok no_duration_result
  /\ List.length (Str.split "hi") = 1%nat
  /\ report_wpm 1 (Some (-1)%Q) = Ok (-60)%Q
  /\ exists rep, score_transcript "hi" (Some (-1)%Q) = Ok rep
                 /\ wpm rep = (-60)%Q.
Proof.
  split; [reflexivity|].
  split; [reflexivity|].
  split; [reflexivity|].
  destruct (score_transcript_returns "hi" (Some (-1)%Q))
    as (rep & Hrep & _ & _ & _ & Hw & _).
  exists rep. split; [exact Hrep|].
  change (report_wpm (List.length (Str.split "hi")) (Some (-1)%Q))
    with (@Ok Q (-60)%Q) in Hw.
  injection Hw as Hw. symmetry. exact Hw.
Qed.

(** ** Grammar and vocabulary: exceptions of the capabilities *)

Section Exceptions.

Variable caps : capabilities.

(** the grammar evaluator returns whatever the checker does *)
Lemma compute_grammar_score_returns (text : string) :
  exists r, compute_grammar_score caps text = Ok r.
Proof.
  unfold compute_grammar_score.
  destruct (grammar_try caps text _); simpl; eauto.
Qed.

(** an exception inside the [try] gives quality 0.7 and the score 8 *)
Lemma compute_grammar_score_fallback (text : string) (e : exn) :
  grammar_try caps text (len_or_1 (List.length (word_list text))) = Raise e ->
  compute_grammar_score caps text = Ok (8, (7 # 10)%Q, "Good grammar.").
Proof.
  intros H. unfold compute_grammar_score. rewrite H. reflexivity.
Qed.

Lemma ttr_fallback_returns (text : string) :
  exists q, ttr_fallback text = Ok q.
Proof.
  unfold ttr_fallback. rewrite div_ok; [eauto|].
  apply of_nat_nonzero, len_or_1_pos.
Qed.

(** an exception of the [ttr] property is caught: the ratio is then the
    one computed on the [word_list] tokens *)
Lemma compute_ttr_score_property_caught (text : string) (lex : lex_t caps)
  (e : exn) :
  LexicalRichness caps text = Ok lex ->
  lex_ttr caps lex = Raise e ->
  exists q, ttr_fallback text = Ok q
            /\ compute_ttr_score caps text = Ok (ttr_bands q).
Proof.
  intros Hl Ht. destruct (ttr_fallback_returns text) as [q Hq].
  exists q. split; [exact Hq|].
  unfold compute_ttr_score. rewrite Hl. cbn [bind]. rewrite Ht.
  cbn [try_except]. rewrite Hq. reflexivity.
Qed.

(** an exception of the constructor is not: the call is before the [try] *)
Lemma compute_ttr_score_constructor_propagates (text : string) (e : exn) :
  LexicalRichness caps text = Raise e ->
  compute_ttr_score caps text = Raise e.
Proof.
  intros Hl. unfold compute_ttr_score. rewrite Hl. reflexivity.
Qed.

End Exceptions.

(** the vocabulary evaluator raises nothing of its own: it returns when the
    constructor does, and otherwise raises what the constructor raised *)
Lemma compute_ttr_score_no_own_exception (caps : capabilities)
  (text : string) :
  match LexicalRichness caps text with
  | Ok _ => exists r, compute_ttr_score caps text = Ok r
  | Raise e => compute_ttr_score caps text = Raise e
  end.
Proof.
  unfold compute_ttr_score.
  destruct (LexicalRichness caps text) as [lex|e]; cbn [bind]; [|reflexivity].
  destruct (lex_ttr caps lex) as [q|e]; cbn [try_except bind]; [eauto|].
  destruct (ttr_fallback_returns text) as [q Hq]. rewrite Hq.
  cbn [bind]. eauto.
Qed.

(** C7 (the code departs from the claim): with [failing_caps] the grammar
    evaluator turns the checker's exception into quality 0.7 and score 8,
    but the exception raised by [LexicalRichness(text)] leaves
    [compute_ttr_score]: the constructor is called before the [try]. *)
Theorem compute_ttr_score_exception_escapes :
  compute_grammar_score failing_caps "hello world"
  = Ok (8, (7 # 10)%Q, "Good grammar.")
  /\ compute_ttr_score failing_caps "hello world" = Raise CapabilityError.
Proof.
  split; reflexivity.
Qed.

(** ** Filler words *)

Lemma filler_rate_returns (text : string) :
  exists rate, filler_rate text = Ok rate /\ (0 <= rate)%Q.
Proof.
  unfold filler_rate. rewrite div_ok.
  - cbn [bind]. eexists. split; [reflexivity|].
    unfold Float.mul. rewrite !Qred_correct.
    apply Qmult_le_0_compat; [|unfold Qle; simpl; lia].
    unfold Qdiv. apply Qmult_le_0_compat.
    + unfold Float.of_nat, Qle. simpl. lia.
    + apply Qinv_le_0_compat. unfold Float.of_nat, Qle. simpl. lia.
  - apply of_nat_nonzero, len_or_1_pos.
Qed.

(** C8: a transcript of 100 [word_list] tokens, 2 of which are
    single-token fillers, with no occurrence of a filler phrase, has rate 2
    and gets score 15. *)
Theorem compute_filler_rate_score_100_words_2_fillers (text : string) :
  List.length (word_list text) = 100%nat ->
  token_count (word_list text) = 2%nat ->
  phrase_count (Str.join " " (word_list text)) = 0%nat ->
  filler_rate text = Ok 2%Q
  /\ compute_filler_rate_score text = Ok (Some (15, 2%Q, "Clear")).
Proof.
  intros Hlen Htok Hphr.
  assert (filler_rate text = Ok 2%Q) as Hrate.
  { unfold filler_rate, filler_count. rewrite Hlen, Htok, Hphr. reflexivity. }
  split; [exact Hrate|].
  unfold compute_filler_rate_score. rewrite Hrate. reflexivity.
Qed.

Lemma compute_filler_rate_score_100_words_2_fillers_witness :
  List.length (word_list hundred_words) = 100%nat
  /\ token_count (word_list hundred_words) = 2%nat
  /\ phrase_count (Str.join " " (word_list hundred_words)) = 0%nat
  /\ compute_filler_rate_score hundred_words = Ok (Some (15, 2%Q, "Clear")).
Proof.
  assert (List.length (word_list hundred_words) = 100%nat) as H1
      by (vm_compute; reflexivity).
  assert (token_count (word_list hundred_words) = 2%nat) as H2
      by (vm_compute; reflexivity).
  assert (phrase_count (Str.join " " (word_list hundred_words)) = 0%nat) as H3
      by (vm_compute; reflexivity).
  split; [exact H1|]. split; [exact H2|]. split; [exact H3|].
  exact (proj2 (compute_filler_rate_score_100_words_2_fillers
                  hundred_words H1 H2 H3)).
Defined.

(** C9: the evaluator returns a triple only when the rate is between 0 and
    3.  The rate is never negative; when it exceeds 3 the body ends without
    a [return] and the call yields [None], so no score comes out. *)
Theorem compute_filler_rate_score_partial (text : string) (rate : Q) :
  filler_rate text = Ok rate ->
  (0 <= rate)%Q
  /\ ((3 < rate)%Q -> compute_filler_rate_score text = Ok None)
  /\ (forall r, compute_filler_rate_score text = Ok (Some r) ->
                (0 <= rate <= 3)%Q /\ r = (15, rate, "Clear")).
Proof.
  intros Hrate.
  destruct (filler_rate_returns text) as (rate' & Hr' & Hpos).
  rewrite Hrate in Hr'. injection Hr' as <-.
  split; [exact Hpos|].
  unfold compute_filler_rate_score. rewrite Hrate. cbn [bind].
  unfold Float.within. split.
  - intros Hgt.
    destruct (Float.leb rate 3) eqn:E.
    + apply leb_true in E. exfalso. exact (Qlt_not_le _ _ Hgt E).
    + rewrite andb_false_r. reflexivity.
  - intros r.
    destruct (Float.leb 0 rate) eqn:E0; destruct (Float.leb rate 3) eqn:E3;
      cbn [andb]; intros H; try discriminate H.
    injection H as <-. apply leb_true in E0, E3. repeat split; assumption.
Qed.

Lemma compute_filler_rate_score_partial_witness :
  filler_rate "um" = Ok 100%Q
  /\ (3 < 100)%Q
  /\ compute_filler_rate_score "um" = Ok None.
Proof.
  split; [reflexivity|]. split; [reflexivity|].
  apply (proj1 (proj2 (compute_filler_rate_score_partial "um" 100%Q eq_refl))).
  reflexivity.
Defined.

(** ** The empty transcript *)

(** the [try] body of the grammar evaluator raises nothing of its own on a
    non-zero word count: it returns when the error count is obtained, and
    otherwise raises what the checker raised *)
Lemma grammar_try_no_own_exception (caps : capabilities) (text : string)
  (words : nat) :
  words <> O ->
  match count_errors caps text with
  | Ok _ => exists q, grammar_try caps text words = Ok q
  | Raise e => grammar_try caps text words = Raise e
  end.
Proof.
  intros Hw. unfold grammar_try.
  destruct (count_errors caps text) as [n|e]; cbn [bind]; [|reflexivity].
  rewrite div_ok by (apply of_nat_nonzero; exact Hw). cbn [bind].
  rewrite div_ok by (unfold Qeq; simpl; lia). cbn [bind]. eauto.
Qed.

(** the speech-rate evaluator on a count of 0 words: the assumed ideal rate
    without a positive duration, and otherwise 0 words per minute *)
Lemma compute_speech_rate_no_words (d : option Q) :
  compute_speech_rate 0 d
  = Ok (match d with
        | Some dur =>
            if Float.leb dur 0 then no_duration_result
            else (2, 0%Q, "Too slow.")
        | None => no_duration_result
        end).
Proof.
  destruct d as [dur|]; [|reflexivity].
  unfold compute_speech_rate.
  destruct (Float.leb dur 0) eqn:E; [reflexivity|].
  rewrite (of_int_ok 0) by (vm_compute; reflexivity). cbn [bind].
  rewrite div_ok by (apply positive_not_zero, E). cbn [bind].
  assert (Qred (inject_Z 0 / dur) = 0%Q) as H0.
  { transitivity (Qred 0); [|reflexivity]. apply Qred_complete.
    unfold Qdiv. apply Qmult_0_l. }
  rewrite H0. reflexivity.
Qed.

(** C10: on the empty transcript the report has 0 words and 0 sentences;
    salutation, keyword presence and flow order give their zero-score
    results; the word count used as a denominator is 1, not 0; and every
    evaluator returns, none raising a division by zero.  Speech rate, on
    the 0 words of the transcript, gives the assumed ideal rate or 0 words
    per minute.  The call [compute_grammar_score] makes into its [try] body
    is the one with the denominator 1: the body returns when the error
    count is obtained, the evaluator then reporting the band of that
    quality, and otherwise raises what the checker raised, the evaluator
    then reporting the fallback.  The token-based type-token ratio is 0,
    and the vocabulary evaluator raises only what the library's
    constructor raised.  The filler rate is 0 and its score 15. *)
Theorem empty_transcript_is_safe (caps : capabilities) (d : option Q) :
  (exists rep, score_transcript "" d = Ok rep
               /\ words rep = O /\ sentences rep = O)
  /\ compute_salutation_score "" = (0, "No salutation found.")
  /\ compute_keyword_presence "" = (0, no_must_flags, no_good_flags)
  /\ compute_order_flow "" = (0, "Order not followed.")
  /\ word_list "" = []
  /\ len_or_1 (List.length (word_list "")) = 1%nat
  /\ compute_speech_rate 0 d
     = Ok (match d with
           | Some dur =>
               if Float.leb dur 0 then no_duration_result
               else (2, 0%Q, "Too slow.")
           | None => no_duration_result
           end)
  /\ compute_grammar_score caps ""
     = (raw <- try_except (grammar_try caps "" 1) (Ok (7 # 10)%Q) ;;
        Ok (grammar_bands raw))
  /\ match count_errors caps "" with
     | Ok _ =>
         exists q, grammar_try caps "" 1 = Ok q
                   /\ compute_grammar_score caps "" = Ok (grammar_bands q)
     | Raise e =>
         grammar_try caps "" 1 = Raise e
         /\ compute_grammar_score caps ""
            = Ok (8, (7 # 10)%Q, "Good grammar.")
     end
  /\ compute_grammar_score heuristic_caps ""
     = Ok (10, 1%Q, "Excellent grammar.")
  /\ ttr_fallback "" = Ok 0%Q
  /\ match LexicalRichness caps "" with
     | Ok _ => exists r, compute_ttr_score caps "" = Ok r
     | Raise e => compute_ttr_score caps "" = Raise e
     end
  /\ filler_rate "" = Ok 0%Q
  /\ compute_filler_rate_score "" = Ok (Some (15, 0%Q, "Clear")).
Proof.
  split.
  { destruct (score_transcript_returns "" d)
      as (rep & Hrep & _ & _ & Hw & _ & Hs).
    exists rep. split; [exact Hrep|]. split; [exact Hw | exact Hs]. }
  split; [vm_compute; reflexivity|].
  split; [vm_compute; reflexivity|].
  split; [vm_compute; reflexivity|].
  split; [reflexivity|].
  split; [reflexivity|].
  split; [apply compute_speech_rate_no_words|].
  assert (compute_grammar_score caps ""
          = (raw <- try_except (grammar_try caps "" 1) (Ok (7 # 10)%Q) ;;
             Ok (grammar_bands raw))) as Hcall by reflexivity.
  split; [exact Hcall|].
  split.
  { pose proof (grammar_try_no_own_exception caps "" 1%nat) as Htry.
    destruct (count_errors caps "") as [n|e].
    - destruct Htry as [q Hq]; [discriminate|].
      exists q. split; [exact Hq|]. rewrite Hcall, Hq. reflexivity.
    - rewrite Hcall, Htry by discriminate. split; reflexivity. }
  split; [reflexivity|].
  split; [reflexivity|].
  split; [apply compute_ttr_score_no_own_exception|].
  split; reflexivity.
Qed.

(** * Further properties of the evaluators *)

(** ** Characters and strings *)

Ltac each_char c :=
  destruct c as [[|] [|] [|] [|] [|] [|] [|] [|]]; vm_compute; reflexivity.

Lemma char_lower_idem (c : ascii) : Char.lower (Char.lower c) = Char.lower c.
Proof. each_char c. Qed.

Lemma char_lower_not_upper (c : ascii) :
  Char.is_upper_az (Char.lower c) = false.
Proof. each_char c. Qed.

Lemma chars_of_chars (l : list ascii) : Str.chars (Str.of_chars l) = l.
Proof. apply list_ascii_of_string_of_list_ascii. Qed.

Lemma of_chars_chars (s : string) : Str.of_chars (Str.chars s) = s.
Proof. apply string_of_list_ascii_of_string. Qed.

Lemma str_lower_idem (s : string) : Str.lower (Str.lower s) = Str.lower s.
Proof.
  unfold Str.lower. rewrite chars_of_chars, map_map. f_equal.
  apply map_ext. intros c. apply char_lower_idem.
Qed.

Lemma lstrip_nonspace_head (l : list ascii) :
  match Str.lstrip l with
  | [] => True
  | c :: _ => Char.isspace c = false
  end.
Proof.
  induction l as [|c l IH]; simpl; [exact I|].
  destruct (Char.isspace c) eqn:E; [exact IH | exact E].
Qed.

Lemma lstrip_app_nonspace (l : list ascii) (x : ascii) :
  Char.isspace x = false -> Str.lstrip (l ++ [x]) = (Str.lstrip l ++ [x])%list.
Proof.
  intros Hx. induction l as [|c l IH]; simpl.
  - rewrite Hx. reflexivity.
  - destruct (Char.isspace c); [exact IH | reflexivity].
Qed.

Lemma lstrip_idem (l : list ascii) : Str.lstrip (Str.lstrip l) = Str.lstrip l.
Proof.
  pose proof (lstrip_nonspace_head l) as H.
  destruct (Str.lstrip l) as [|c m]; [reflexivity|].
  simpl. rewrite H. reflexivity.
Qed.

Lemma strip_chars_idem (l : list ascii) :
  Str.strip_chars (Str.strip_chars l) = Str.strip_chars l.
Proof.
  unfold Str.strip_chars.
  pose proof (lstrip_nonspace_head l) as H.
  destruct (Str.lstrip l) as [|x a].
  - reflexivity.
  - assert (rev (Str.lstrip (rev (x :: a)))
            = x :: rev (Str.lstrip (rev a))) as Hx.
    { simpl rev at 2. rewrite (lstrip_app_nonspace _ _ H).
      rewrite rev_app_distr. reflexivity. }
    rewrite Hx. simpl Str.lstrip at 2. rewrite H.
    rewrite <- Hx. rewrite rev_involutive, lstrip_idem. reflexivity.
Qed.

Lemma strip_idem (s : string) : Str.strip (Str.strip s) = Str.strip s.
Proof.
  unfold Str.strip. rewrite chars_of_chars, strip_chars_idem. reflexivity.
Qed.

Lemma lstrip_all_space (l : list ascii) :
  forallb Char.isspace l = true -> Str.lstrip l = [].
Proof.
  induction l as [|c l IH]; simpl; [reflexivity|].
  intros H. apply andb_true_iff in H as [Hc Hl]. rewrite Hc. auto.
Qed.

Lemma strip_all_space (s : string) :
  forallb Char.isspace (Str.chars s) = true -> Str.strip s = "".
Proof.
  intros H. unfold Str.strip, Str.strip_chars.
  rewrite (lstrip_all_space _ H). reflexivity.
Qed.

(** X1: the evaluators that lower-case their input give the same result on
    a text and on its lower-case form: the tokens of [word_list], the
    salutation score, the keyword total and flags, the flow-order score and
    the filler-rate result do not depend on letter case. *)
Theorem evaluators_ignore_case (text : string) :
  word_list (Str.lower text) = word_list text
  /\ compute_salutation_score (Str.lower text) = compute_salutation_score text
  /\ compute_keyword_presence (Str.lower text) = compute_keyword_presence text
  /\ compute_order_flow (Str.lower text) = compute_order_flow text
  /\ compute_filler_rate_score (Str.lower text)
     = compute_filler_rate_score text.
Proof.
  assert (word_list (Str.lower text) = word_list text) as Hwl
      by (unfold word_list; rewrite str_lower_idem; reflexivity).
  split; [exact Hwl|].
  split; [unfold compute_salutation_score; rewrite str_lower_idem;
          reflexivity|].
  split; [unfold compute_keyword_presence, must_have, good_have;
          rewrite str_lower_idem; reflexivity|].
  split; [unfold compute_order_flow, order_flow_indices;
          rewrite str_lower_idem; reflexivity|].
  unfold compute_filler_rate_score, filler_rate, filler_count.
  rewrite Hwl. reflexivity.
Qed.

(** ** Sentences *)

Lemma truthy_true (s : string) : Str.truthy s = true <-> s <> "".
Proof.
  destruct s; simpl; split; intros H; congruence.
Qed.

(** X2: every sentence [tokenize_sentences] returns is non-empty and has no
    leading or trailing whitespace (stripping it again changes nothing). *)
Theorem tokenize_sentences_stripped (text : string) :
  Forall (fun s => s <> "" /\ Str.strip s = s) (tokenize_sentences text).
Proof.
  unfold tokenize_sentences. apply Forall_forall. intros s Hs.
  apply in_map_iff in Hs as (p & <- & Hp).
  apply filter_In in Hp as [_ Hp].
  split; [apply truthy_true; exact Hp | apply strip_idem].
Qed.

Lemma match_sentence_end_needs_mark (pv : option ascii) (c : ascii)
  (l : list ascii) :
  sentence_mark c = false ->
  match_at sentence_end (mkPos None pv (c :: l)) = None.
Proof.
  intros Hc. unfold match_at, sentence_end. cbn [run step rest cap prev].
  rewrite Hc. reflexivity.
Qed.

Lemma split_from_no_mark (l : list ascii) :
  Forall (fun c => sentence_mark c = false) l ->
  forall pv cur,
    split_from sentence_end pv l O cur = [Str.of_chars (rev cur ++ l)].
Proof.
  induction 1 as [|c l Hc Hl IH]; intros pv cur; simpl split_from.
  - rewrite app_nil_r. reflexivity.
  - rewrite (match_sentence_end_needs_mark pv c l Hc).
    rewrite IH. simpl rev. rewrite <- app_assoc. reflexivity.
Qed.

Lemma Forall_lstrip (P : ascii -> Prop) (l : list ascii) :
  Forall P l -> Forall P (Str.lstrip l).
Proof.
  induction 1 as [|c l Hc Hl IH]; simpl; [constructor|].
  destruct (Char.isspace c); [exact IH | constructor; assumption].
Qed.

Lemma Forall_strip_chars (P : ascii -> Prop) (l : list ascii) :
  Forall P l -> Forall P (Str.strip_chars l).
Proof.
  intros H. unfold Str.strip_chars.
  apply Forall_rev, Forall_lstrip, Forall_rev, Forall_lstrip, H.
Qed.

(** X3: a text without any of the marks [.], [!], [?] is one sentence, the
    stripped text, or no sentence at all when it is blank. *)
Theorem tokenize_sentences_without_marks (text : string) :
  no_sentence_mark text ->
  tokenize_sentences text
  = if Str.truthy (Str.strip text) then [Str.strip text] else [].
Proof.
  intros H. unfold tokenize_sentences, Re.split.
  rewrite split_from_no_mark.
  - simpl rev. simpl app. rewrite of_chars_chars.
    simpl filter. rewrite strip_idem.
    destruct (Str.truthy (Str.strip text)); simpl; [|reflexivity].
    rewrite strip_idem. reflexivity.
  - unfold Str.strip. rewrite chars_of_chars.
    apply Forall_strip_chars, H.
Qed.

Lemma tokenize_sentences_without_marks_witness :
  no_sentence_mark "  good morning  "
  /\ tokenize_sentences "  good morning  " = ["good morning"].
Proof.
  assert (no_sentence_mark "  good morning  ") as H
      by (unfold no_sentence_mark; simpl;
          repeat (constructor; [reflexivity|]); constructor).
  split; [exact H|].
  exact (tokenize_sentences_without_marks "  good morning  " H).
Defined.

(** ** Word and sentence counts of the report *)

Lemma split_ws_aux_nil (l cur : list ascii) :
  Str.split_ws_aux cur l = []
  <-> cur = [] /\ forallb Char.isspace l = true.
Proof.
  revert cur. induction l as [|c l IH]; intros cur; simpl.
  - destruct cur; split; intros H; try discriminate; auto.
    destruct H as [H _]. discriminate H.
  - destruct (Char.isspace c) eqn:E; simpl.
    + destruct cur as [|x cur].
      * rewrite IH. tauto.
      * split; [discriminate|]. intros [H _]. discriminate H.
    + rewrite IH. split; [intros [H _]; discriminate H|].
      intros [_ H]. discriminate H.
Qed.

Lemma lstrip_nil (l : list ascii) :
  Str.lstrip l = [] <-> forallb Char.isspace l = true.
Proof.
  split; [|apply lstrip_all_space].
  induction l as [|c l IH]; simpl; [reflexivity|].
  destruct (Char.isspace c); [exact IH | discriminate].
Qed.

Lemma forallb_rev_eq {A : Type} (f : A -> bool) (l : list A) :
  forallb f (rev l) = forallb f l.
Proof.
  induction l as [|a l IH]; simpl; [reflexivity|].
  rewrite forallb_app, IH. simpl. rewrite andb_true_r. apply andb_comm.
Qed.

Lemma strip_chars_nil (l : list ascii) :
  Str.strip_chars l = [] <-> forallb Char.isspace l = true.
Proof.
  unfold Str.strip_chars. split.
  - intros H. apply (f_equal (@rev ascii)) in H.
    rewrite rev_involutive in H. simpl in H.
    apply lstrip_nil in H. rewrite forallb_rev_eq in H.
    pose proof (lstrip_nonspace_head l) as Hh.
    destruct (Str.lstrip l) as [|x a] eqn:E.
    + apply lstrip_nil. exact E.
    + simpl in H. rewrite Hh in H. discriminate H.
  - intros H. rewrite (lstrip_all_space _ H). reflexivity.
Qed.

Lemma of_chars_nil (l : list ascii) : Str.of_chars l = "" <-> l = [].
Proof.
  destruct l; simpl; split; intros H; congruence.
Qed.

Lemma blank_piece (l : list ascii) :
  Str.truthy (Str.strip (Str.of_chars l)) = false
  <-> forallb Char.isspace l = true.
Proof.
  rewrite <- strip_chars_nil. unfold Str.strip. rewrite chars_of_chars.
  rewrite <- of_chars_nil.
  destruct (Str.of_chars (Str.strip_chars l)); simpl;
    split; intros H; congruence.
Qed.

Lemma sentence_pieces_nil (l cur : list ascii) :
  sentence_pieces l cur = []
  <-> forallb Char.isspace cur = true /\ forallb space_or_dot l = true.
Proof.
  unfold sentence_pieces. revert cur.
  induction l as [|c l IH]; intros cur; simpl.
  - destruct (Str.truthy (Str.strip (Str.of_chars (rev cur)))) eqn:E.
    + split; [discriminate|]. intros [H _].
      rewrite <- forallb_rev_eq in H. apply blank_piece in H. congruence.
    + apply blank_piece in E. rewrite forallb_rev_eq in E. tauto.
  - unfold space_or_dot at 1.
    destruct (Ascii.eqb c ".") eqn:Ec.
    + rewrite orb_true_r. simpl.
      destruct (Str.truthy (Str.strip (Str.of_chars (rev cur)))) eqn:E.
      * split; [discriminate|]. intros [H _].
        rewrite <- forallb_rev_eq in H. apply blank_piece in H. congruence.
      * apply blank_piece in E. rewrite forallb_rev_eq in E.
        rewrite IH. simpl. tauto.
    + rewrite orb_false_r. rewrite IH. simpl.
      destruct (Char.isspace c); simpl; intuition congruence.
Qed.

(** X4: the report counts 0 words exactly when the transcript consists of
    whitespace only (the empty one included), and 0 sentences exactly when
    it consists of whitespace and dots only. *)
Theorem report_counts_zero (t : string) (d : option Q) :
  exists rep,
    score_transcript t d = Ok rep
    /\ (words rep = O <-> forallb Char.isspace (Str.chars t) = true)
    /\ (sentences rep = O <-> forallb space_or_dot (Str.chars t) = true).
Proof.
  destruct (score_transcript_returns t d)
    as (rep & Hrep & _ & _ & Hw & _ & Hs).
  exists rep. split; [exact Hrep|]. rewrite Hw, Hs. split.
  - rewrite length_zero_iff_nil. unfold Str.split.
    rewrite split_ws_aux_nil. tauto.
  - rewrite length_zero_iff_nil.
    pose proof (sentence_pieces_nil (Str.chars t) []) as H.
    unfold sentence_pieces in H. unfold Str.split_char.
    rewrite H. simpl. tauto.
Qed.

Lemma report_counts_zero_witness :
  exists rep, score_transcript "   " None = Ok rep
              /\ words rep = O /\ sentences rep = O.
Proof.
  destruct (report_counts_zero "   " None) as (rep & Hrep & Hw & Hs).
  exists rep. split; [exact Hrep|].
  split; [apply Hw | apply Hs]; reflexivity.
Defined.

(** ** The tokens of [word_list] *)

Lemma run_star_cls_loop (f : ascii -> bool) (p : pos) :
  run (Star (Cls f)) p (fun q => Some q)
  = cls_loop f (List.length (rest p)) p.
Proof. reflexivity. Qed.

(** a run of characters of a class: the position reached is the text left
    after a prefix all in the class *)
Lemma cls_loop_run (f : ascii -> bool) (fuel : nat) :
  forall p q,
    cls_loop f fuel p = Some q ->
    exists m, rest p = (m ++ rest q)%list /\ forallb f m = true.
Proof.
  induction fuel as [|fuel IH]; intros p q H; simpl in H.
  - injection H as <-. exists []. split; reflexivity.
  - destruct (step p) as [[x p']|] eqn:Es.
    + unfold step in Es. destruct (rest p) as [|c l] eqn:Er; [discriminate|].
      injection Es as <- <-. cbn [rest] in H.
      destruct (f c) eqn:Ef.
      * destruct (List.length l <? List.length (c :: l))%nat.
        -- destruct (cls_loop f fuel _) as [q'|] eqn:E.
           ++ injection H as <-. apply IH in E. cbn [rest] in E.
              destruct E as (m & Hm & Hf). exists (c :: m).
              split; [simpl; rewrite Hm; reflexivity
                     | simpl; rewrite Ef; exact Hf].
           ++ injection H as <-. exists []. rewrite Er. split; reflexivity.
        -- injection H as <-. exists []. rewrite Er. split; reflexivity.
      * injection H as <-. exists []. rewrite Er. split; reflexivity.
    + injection H as <-. exists []. split; reflexivity.
Qed.

Lemma match_at_plus_cls (f : ascii -> bool) (pv : option ascii)
  (l : list ascii) :
  match_at (Plus (Cls f)) (mkPos None pv l)
  = match l with
    | [] => None
    | c :: l' =>
        if f c then cls_loop f (List.length l') (mkPos None (Some c) l')
        else None
    end.
Proof. destruct l; reflexivity. Qed.

(** a match of [Plus (Cls f)]: a non-empty prefix all in the class *)
Lemma match_plus_cls_prefix (f : ascii -> bool) (pv : option ascii)
  (l : list ascii) (q : pos) :
  match_at (Plus (Cls f)) (mkPos None pv l) = Some q ->
  exists c m, consumed (mkPos None pv l) q = c :: m
              /\ l = (c :: m ++ rest q)%list
              /\ forallb f (c :: m) = true.
Proof.
  rewrite match_at_plus_cls.
  destruct l as [|c l]; [discriminate|].
  destruct (f c) eqn:Ef; [|discriminate].
  intros H. apply cls_loop_run in H.
  cbn [rest] in H. destruct H as (m & Hm & Hf).
  exists c, m. split; [|split].
  - unfold consumed. cbn [rest]. rewrite Hm.
    assert (List.length (c :: m ++ rest q) - List.length (rest q)
            = List.length (c :: m))%nat as Hlen
        by (cbn [List.length]; rewrite length_app; lia).
    rewrite Hlen.
    change (c :: m ++ rest q)%list with ((c :: m) ++ rest q)%list.
    rewrite firstn_app, firstn_all, Nat.sub_diag. simpl.
    rewrite app_nil_r. reflexivity.
  - rewrite Hm. reflexivity.
  - simpl. rewrite Ef. exact Hf.
Qed.

(** every string [findall] returns is the text of a match that starts at
    some point of the text *)
Lemma findall_from_Forall (r : regex) (T : list ascii -> list ascii -> Prop) :
  (forall pv l q, match_at r (mkPos None pv l) = Some q ->
                  T l (consumed (mkPos None pv l) q)) ->
  (forall c l m, T l m -> T (c :: l) m) ->
  forall l pv skip,
    Forall (fun s => T l (Str.chars s)) (findall_from r pv l skip).
Proof.
  intros Hmatch Hmono.
  assert (forall c l (ss : list string),
             Forall (fun s => T l (Str.chars s)) ss ->
             Forall (fun s => T (c :: l) (Str.chars s)) ss) as Hup.
  { intros c l ss H. eapply Forall_impl; [|exact H].
    intros s Hs. apply Hmono, Hs. }
  induction l as [|c l IH]; intros pv skip.
  - destruct skip; cbn [findall_from]; [|constructor].
    destruct (match_at r (mkPos None pv [])) as [q|] eqn:E; constructor.
    + rewrite chars_of_chars. apply Hmatch, E.
    + constructor.
  - destruct skip; cbn [findall_from].
    + destruct (match_at r (mkPos None pv (c :: l))) as [q|] eqn:E.
      * constructor; [rewrite chars_of_chars; apply Hmatch, E|].
        apply Hup, IH.
      * apply Hup, IH.
    + apply Hup, IH.
Qed.

Lemma forallb_app_r {A : Type} (f : A -> bool) (a b : list A) :
  forallb f (a ++ b) = true -> forallb f a = true.
Proof.
  rewrite forallb_app. intros H. apply andb_true_iff in H. tauto.
Qed.

(** X5: every token of [word_list] is non-empty and made of lower-case
    letters a-z and apostrophes only; in particular no token contains a
    space, so the token loop of the filler count never meets a filler
    phrase. *)
Theorem word_list_tokens (text : string) :
  Forall (fun w => w <> ""
                   /\ forallb token_char (Str.chars w) = true
                   /\ Str.contains_char " " w = false)
         (word_list text).
Proof.
  unfold word_list, findall.
  set (T := fun (l m : list ascii) =>
              m <> []
              /\ forallb letter_or_apostrophe m = true
              /\ (forallb (fun c => negb (Char.is_upper_az c)) l = true ->
                  forallb (fun c => negb (Char.is_upper_az c)) m = true)).
  assert (forallb (fun c => negb (Char.is_upper_az c))
                  (Str.chars (Str.lower text)) = true) as Hlow.
  { unfold Str.lower. rewrite chars_of_chars. apply forallb_forall.
    intros c Hc. apply in_map_iff in Hc as (c0 & <- & _).
    rewrite char_lower_not_upper. reflexivity. }
  pose proof (findall_from_Forall (Plus (Cls letter_or_apostrophe)) T) as H.
  eapply Forall_impl; [|apply H].
  - intros w (Hne & Hcls & Hup). specialize (Hup Hlow).
    assert (forallb token_char (Str.chars w) = true) as Htok.
    { apply forallb_forall. intros c Hc.
      rewrite forallb_forall in Hcls, Hup.
      specialize (Hcls c Hc). specialize (Hup c Hc).
      unfold letter_or_apostrophe in Hcls. unfold token_char.
      destruct (Char.is_upper_az c); [discriminate Hup | exact Hcls]. }
    split; [|split].
    + intros ->. apply Hne. reflexivity.
    + exact Htok.
    + unfold Str.contains_char.
      destruct (existsb (Ascii.eqb " ") (Str.chars w)) eqn:E; [|reflexivity].
      apply existsb_exists in E as (c & Hc & Ec).
      apply Ascii.eqb_eq in Ec. subst c.
      rewrite forallb_forall in Htok. specialize (Htok _ Hc).
      discriminate Htok.
  - intros pv l q Hm. apply match_plus_cls_prefix in Hm as (c & m & Hc & Hl & Hf).
    rewrite Hc. split; [discriminate|]. split; [exact Hf|].
    rewrite Hl. change (c :: m ++ rest q)%list with ((c :: m) ++ rest q)%list.
    apply forallb_app_r.
  - intros c l m (H1 & H2 & H3). split; [exact H1|]. split; [exact H2|].
    intros Hl. simpl in Hl. apply andb_true_iff in Hl as [_ Hl]. auto.
Qed.

(** ** Keyword presence: the total *)

Lemma scan_keys_flags_gen (points : Z) (t : string)
  (keys : list (string * list regex)) (acc : Z * list (string * bool)) :
  map fst (snd (fold_left
    (fun (acc : Z * list (string * bool)) (entry : string * list regex) =>
       let present := any_found (snd entry) t in
       ((if present then fst acc + points else fst acc),
        (snd acc ++ [(fst entry, present)])%list)) keys acc))
  = (map fst (snd acc) ++ map fst keys)%list.
Proof.
  revert acc. induction keys as [|entry keys IH]; intros acc; simpl.
  - rewrite app_nil_r. reflexivity.
  - rewrite IH. cbn [snd]. rewrite map_app. simpl.
    rewrite <- app_assoc. reflexivity.
Qed.

(** the flag mapping has the keys of the table, in its order *)
Lemma scan_keys_flags (points : Z) (keys : list (string * list regex))
  (t : string) :
  map fst (snd (scan_keys points keys t)) = map fst keys.
Proof. unfold scan_keys. rewrite scan_keys_flags_gen. reflexivity. Qed.

Lemma count_true_bounds (flags : list (string * bool)) :
  0 <= count_true flags <= Z.of_nat (List.length flags).
Proof.
  unfold count_true. pose proof (filter_length_le (fun e => snd e) flags).
  lia.
Qed.

(** X6: [compute_keyword_presence] returns the five must-have flags and the
    five good-to-have flags in the order of the tables; the total is 4 for
    each true must-have flag plus 2 for each true good-to-have flag, and
    lies between 0 and 30. *)
Theorem compute_keyword_presence_total (text : string) :
  let must_flags := snd (fst (compute_keyword_presence text)) in
  let good_flags := snd (compute_keyword_presence text) in
  let total := fst (fst (compute_keyword_presence text)) in
  map fst must_flags = ["name"; "age"; "school_class"; "family"; "hobbies"]
  /\ map fst good_flags
     = ["about_family"; "origin_location"; "ambition_goal";
        "interesting_unique"; "strengths_achievements"]
  /\ total = 4 * count_true must_flags + 2 * count_true good_flags
  /\ 0 <= total <= 30.
Proof.
  cbn zeta. unfold compute_keyword_presence. cbn [fst snd].
  unfold must_have, good_have.
  pose proof (scan_keys_flags 4 MUST_HAVE_KEYS (Str.lower text)) as Hm.
  pose proof (scan_keys_flags 2 GOOD_TO_HAVE_KEYS (Str.lower text)) as Hg.
  rewrite (scan_keys_points 4), (scan_keys_points 2).
  pose proof (count_true_bounds
                (snd (scan_keys 4 MUST_HAVE_KEYS (Str.lower text)))) as Bm.
  pose proof (count_true_bounds
                (snd (scan_keys 2 GOOD_TO_HAVE_KEYS (Str.lower text)))) as Bg.
  assert (List.length (snd (scan_keys 4 MUST_HAVE_KEYS (Str.lower text)))
          = 5%nat) as Lm
      by (rewrite <- (length_map fst), Hm; reflexivity).
  assert (List.length (snd (scan_keys 2 GOOD_TO_HAVE_KEYS (Str.lower text)))
          = 5%nat) as Lg
      by (rewrite <- (length_map fst), Hg; reflexivity).
  rewrite Lm in Bm. rewrite Lg in Bg.
  split; [exact Hm|]. split; [exact Hg|]. split; [reflexivity|]. lia.
Qed.

(** ** Flow order: what full marks need *)

Lemma min_of_3_nonneg (a b c : Z) :
  0 <= min_of a [b; c] <-> 0 <= a /\ 0 <= b /\ 0 <= c.
Proof. unfold min_of. simpl. lia. Qed.

(** X7: the flow-order score is 5 only if all three greetings "hello
    everyone", "hello " and "hi " occur in the lower-cased text, an
    additional-fact marker and "thank you" occur too, and the feedback is
    then "Order followed.". *)
Theorem compute_order_flow_5_needs (text : string) :
  fst (compute_order_flow text) = 5 ->
  let t := Str.lower text in
  0 <= Str.find t "hello everyone"
  /\ 0 <= Str.find t "hello "
  /\ 0 <= Str.find t "hi "
  /\ 0 <= idx_additional (order_flow_indices text)
  /\ 0 <= Str.find t "thank you"
  /\ snd (compute_order_flow text) = "Order followed.".
Proof.
  intros H. pose proof H as H5.
  apply compute_order_flow_5_iff in H
    as (b & bs & Hb & Hsal & Hadd & Hclose & Hord & Hlast).
  cbn zeta.
  unfold order_flow_indices in Hsal. cbn [idx_sal] in Hsal.
  apply min_of_3_nonneg in Hsal as (H1 & H2 & H3).
  split; [exact H1|]. split; [exact H2|]. split; [exact H3|].
  split; [exact Hadd|]. split; [exact Hclose|].
  unfold compute_order_flow in *. rewrite Hb in *.
  destruct ((0 <=? idx_sal (order_flow_indices text))
            && (0 <=? idx_additional (order_flow_indices text))
            && (0 <=? idx_close (order_flow_indices text)));
    [|discriminate H5].
  cbn [fst snd] in *.
  destruct ((idx_sal (order_flow_indices text) <=? min_of b bs)
            && (min_of b bs <=? idx_additional (order_flow_indices text))
            && (idx_additional (order_flow_indices text)
                <=? idx_close (order_flow_indices text)));
    [reflexivity | discriminate H5].
Qed.

Lemma compute_order_flow_5_needs_witness :
  fst (compute_order_flow all_markers_intro) = 5
  /\ 0 <= Str.find (Str.lower all_markers_intro) "hi ".
Proof.
  assert (fst (compute_order_flow all_markers_intro) = 5) as H
      by (vm_compute; reflexivity).
  split; [exact H|].
  exact (proj1 (proj2 (proj2 (compute_order_flow_5_needs all_markers_intro H)))).
Defined.

(** ** Speech rate: the bands *)

(** X8: for a positive duration and a word count a float can hold,
    [compute_speech_rate] returns, and the score and the feedback are
    decided by the wpm it returns: the score is 10 exactly when
    111 <= wpm <= 140, it is 6 exactly when 141 <= wpm <= 160 or
    81 <= wpm <= 110, and it is 2 otherwise; the feedback is "Too fast."
    exactly when wpm > 161. *)
Theorem compute_speech_rate_bands (words : Z) (dur : Q) :
  (0 < dur)%Q ->
  Z.abs words < Float.int_bound ->
  exists sc wpm fb,
    compute_speech_rate words (Some dur) = Ok (sc, wpm, fb)
    /\ (sc = 10 <-> (111 <= wpm <= 140)%Q)
    /\ (sc = 6 <-> (141 <= wpm <= 160)%Q \/ (81 <= wpm <= 110)%Q)
    /\ (sc = 2 \/ sc = 6 \/ sc = 10)
    /\ (fb = "Too fast." <-> (161 < wpm)%Q).
Proof.
  intros Hd Hw. unfold compute_speech_rate.
  destruct (Float.leb dur 0) eqn:E0.
  { apply leb_true in E0. exfalso. lra. }
  rewrite (of_int_ok words Hw). cbn [bind].
  rewrite div_ok by (apply positive_not_zero, E0).
  cbn [bind].
  set (wpm := Float.mul (Qred (inject_Z words / dur)) 60).
  clearbody wpm.
  unfold Float.within.
  destruct (Float.ltb 161 wpm) eqn:E1;
    [apply ltb_true in E1
    |assert (~ (161 < wpm)%Q) as N1
        by (intros X; apply ltb_true in X; congruence)];
  destruct (Float.leb 141 wpm) eqn:A1; destruct (Float.leb wpm 160) eqn:A2;
  destruct (Float.leb 111 wpm) eqn:B1; destruct (Float.leb wpm 140) eqn:B2;
  destruct (Float.leb 81 wpm) eqn:C1; destruct (Float.leb wpm 110) eqn:C2;
  cbn [andb];
  repeat match goal with
         | H : Float.leb _ _ = true |- _ => apply leb_true in H
         | H : Float.leb ?a ?b = false |- _ =>
             assert (~ (a <= b)%Q)
               by (intros X; apply leb_true in X; congruence);
             clear H
         end;
  do 3 eexists; (split; [reflexivity|]);
  (split; [split; [intros X; try discriminate X; try lra
                  | intros X; try reflexivity; exfalso; lra]|]);
  (split; [split; [intros X; try discriminate X; try lra
                  | intros X; try reflexivity; exfalso; lra]|]);
  (split; [auto|]);
  (split; [intros X; try discriminate X; try lra
          | intros X; try reflexivity; exfalso; lra]).
Qed.

Lemma compute_speech_rate_bands_witness :
  (0 < 60)%Q
  /\ Z.abs 125 < Float.int_bound
  /\ exists sc wpm fb,
       compute_speech_rate 125 (Some 60%Q) = Ok (sc, wpm, fb)
       /\ (sc = 10 <-> (111 <= wpm <= 140)%Q).
Proof.
  assert (Z.abs 125 < Float.int_bound) as Hw by (vm_compute; reflexivity).
  split; [reflexivity|]. split; [exact Hw|].
  destruct (compute_speech_rate_bands 125 60%Q eq_refl Hw)
    as (sc & wpm & fb & H1 & H2 & _).
  exists sc, wpm, fb. split; assumption.
Defined.

(** ** Grammar: quality and bands *)

Lemma of_nat_nonneg (n : nat) : (0 <= Float.of_nat n)%Q.
Proof. unfold Float.of_nat, Qle. simpl. lia. Qed.

Lemma of_nat_pos (n : nat) : n <> O -> (0 < Float.of_nat n)%Q.
Proof. intros H. unfold Float.of_nat, Qlt. simpl. lia. Qed.

Lemma ratio_nonneg (a b : nat) :
  b <> O -> (0 <= Float.of_nat a / Float.of_nat b)%Q.
Proof.
  intros Hb. apply Qle_shift_div_l; [apply of_nat_pos, Hb|].
  rewrite Qmult_0_l. apply of_nat_nonneg.
Qed.

(** the quality computed in the [try] lies between 0 and 1 *)
Lemma grammar_try_range (caps : capabilities) (text : string) (words : nat)
  (raw : Q) :
  words <> O ->
  grammar_try caps text words = Ok raw -> (0 <= raw <= 1)%Q.
Proof.
  intros Hw. unfold grammar_try.
  destruct (count_errors caps text) as [n|e]; cbn [bind]; [|discriminate].
  rewrite div_ok by (apply of_nat_nonzero; exact Hw). cbn [bind].
  rewrite div_ok by (unfold Qeq; simpl; lia). cbn [bind].
  pose proof (ratio_nonneg n words Hw) as Hr.
  match goal with
  | |- Ok (Float.sub 1 (Float.min ?x 1)) = _ -> _ => set (q10 := x)
  end.
  assert (0 <= q10)%Q as Hq.
  { unfold q10, Float.mul. rewrite !Qred_correct.
    set (r := (Float.of_nat n / Float.of_nat words)%Q) in *.
    clearbody r. clear q10.
    assert (r * 100 / 10 == r * 10)%Q as E by field.
    rewrite E. lra. }
  clearbody q10. intros H. injection H as <-.
  unfold Float.sub, Float.min. rewrite Qred_correct.
  destruct (Float.leb q10 1) eqn:E.
  - apply leb_true in E. lra.
  - lra.
Qed.

Lemma grammar_bands_score (raw : Q) :
  In (fst (fst (grammar_bands raw))) [2; 4; 6; 8; 10]
  /\ snd (fst (grammar_bands raw)) = raw.
Proof.
  unfold grammar_bands, lower_bands.
  repeat match goal with
         | |- context [if ?b then _ else _] => destruct b
         end; simpl; auto 10.
Qed.

(** X9: whatever the grammar checker does (return or raise),
    [compute_grammar_score] returns; the quality it reports lies between 0
    and 1 and the score is one of 2, 4, 6, 8, 10. *)
Theorem compute_grammar_score_range (caps : capabilities) (text : string) :
  exists sc raw fb,
    compute_grammar_score caps text = Ok (sc, raw, fb)
    /\ (0 <= raw <= 1)%Q
    /\ In sc [2; 4; 6; 8; 10].
Proof.
  unfold compute_grammar_score.
  set (words := len_or_1 (List.length (word_list text))).
  destruct (grammar_try caps text words) as [raw|e] eqn:E;
    cbn [try_except bind].
  - pose proof (grammar_try_range caps text words raw
                  (len_or_1_pos _) E) as Hr.
    pose proof (grammar_bands_score raw) as [Hs Hq].
    destruct (grammar_bands raw) as [[sc raw'] fb]. cbn [fst snd] in *.
    subst raw'. exists sc, raw, fb. auto.
  - exists 8, (7 # 10)%Q, "Good grammar.".
    split; [reflexivity|]. split; [lra | simpl; auto].
Qed.

(** X10: without the grammar checker, a text in which the heuristic finds
    no run of two or more whitespace characters and no immediately repeated
    word gets quality 1 and the full score 10. *)
Theorem compute_grammar_score_clean (caps : capabilities) (text : string) :
  LT_AVAILABLE caps = false ->
  heuristic_errors text = O ->
  compute_grammar_score caps text = Ok (10, 1%Q, "Excellent grammar.").
Proof.
  intros Hlt Herr. unfold compute_grammar_score, grammar_try, count_errors.
  rewrite Hlt, Herr. cbn [bind].
  rewrite div_ok by (apply of_nat_nonzero, len_or_1_pos). cbn [bind].
  assert (Qred (Float.of_nat 0
                / Float.of_nat (len_or_1 (List.length (word_list text))))
          = 0%Q) as H0.
  { transitivity (Qred 0); [|reflexivity]. apply Qred_complete.
    unfold Qdiv. apply Qmult_0_l. }
  rewrite H0. reflexivity.
Qed.

Lemma compute_grammar_score_clean_witness :
  heuristic_errors "hello world" = O
  /\ compute_grammar_score heuristic_caps "hello world"
     = Ok (10, 1%Q, "Excellent grammar.").
Proof.
  assert (heuristic_errors "hello world" = O) as H by (vm_compute; reflexivity).
  split; [exact H|].
  exact (compute_grammar_score_clean heuristic_caps "hello world" eq_refl H).
Defined.

(** X11: the bands of the grammar score leave gaps: a quality computed in
    the [try] that lies in (0.89, 0.9], in (0.69, 0.7) or in (0.49, 0.5)
    reaches the last branch and gets score 2, "Very poor grammar.".  One
    error in 100 words (quality 0.9) is such a case. *)
Theorem compute_grammar_score_between_bands (caps : capabilities)
  (text : string) (raw : Q) :
  grammar_try caps text (len_or_1 (List.length (word_list text))) = Ok raw ->
  (89 # 100 < raw <= 9 # 10)%Q \/ (69 # 100 < raw < 7 # 10)%Q
  \/ (49 # 100 < raw < 5 # 10)%Q ->
  compute_grammar_score caps text = Ok (2, raw, "Very poor grammar.").
Proof.
  intros Ht Hgap. unfold compute_grammar_score. rewrite Ht.
  cbn [try_except bind]. unfold grammar_bands, lower_bands, Float.within.
  destruct (Float.ltb (9 # 10) raw) eqn:E1;
    [apply ltb_true in E1; exfalso; lra|].
  destruct (Float.leb (7 # 10) raw) eqn:A1; destruct (Float.leb raw (89 # 100)) eqn:A2;
  destruct (Float.leb (5 # 10) raw) eqn:B1; destruct (Float.leb raw (69 # 100)) eqn:B2;
  destruct (Float.leb (3 # 10) raw) eqn:C1; destruct (Float.leb raw (49 # 100)) eqn:C2;
  cbn [andb]; try reflexivity;
  repeat match goal with
         | H : Float.leb _ _ = true |- _ => apply leb_true in H
         | H : Float.leb ?a ?b = false |- _ =>
             assert (~ (a <= b)%Q)
               by (intros X; apply leb_true in X; congruence);
             clear H
         end;
  exfalso; lra.
Qed.

Lemma compute_grammar_score_between_bands_witness :
  grammar_try one_error_caps hundred_words
    (len_or_1 (List.length (word_list hundred_words))) = Ok (9 # 10)%Q
  /\ compute_grammar_score one_error_caps hundred_words
     = Ok (2, (9 # 10)%Q, "Very poor grammar.").
Proof.
  assert (grammar_try one_error_caps hundred_words
            (len_or_1 (List.length (word_list hundred_words)))
          = Ok (9 # 10)%Q) as H by (vm_compute; reflexivity).
  split; [exact H|].
  apply (compute_grammar_score_between_bands one_error_caps hundred_words
           (9 # 10)%Q H).
  left. split; [reflexivity | discriminate].
Defined.

(** ** Vocabulary: the token-based ratio *)

Lemma nodup_length_le (l : list string) :
  (List.length (nodup string_dec l) <= List.length l)%nat.
Proof.
  induction l as [|a l IH]; simpl; [lia|].
  destruct (in_dec string_dec a l); simpl; lia.
Qed.

Lemma ratio_le_1 (a b : nat) :
  b <> O -> (a <= b)%nat -> (Float.of_nat a / Float.of_nat b <= 1)%Q.
Proof.
  intros Hb Hab. apply Qle_shift_div_r; [apply of_nat_pos, Hb|].
  rewrite Qmult_1_l. unfold Float.of_nat. rewrite <- Zle_Qle. lia.
Qed.

Lemma ttr_fallback_range (text : string) :
  exists q, ttr_fallback text = Ok q /\ (0 <= q <= 1)%Q.
Proof.
  unfold ttr_fallback.
  set (wl := word_list text).
  rewrite div_ok by (apply of_nat_nonzero, len_or_1_pos).
  eexists. split; [reflexivity|]. rewrite Qred_correct. split.
  - apply ratio_nonneg, len_or_1_pos.
  - apply ratio_le_1; [apply len_or_1_pos|].
    pose proof (nodup_length_le wl). destruct (List.length wl); simpl in *; lia.
Qed.

Lemma ttr_bands_score (ttr : Q) :
  In (fst (fst (ttr_bands ttr))) [2; 4; 6; 8; 10]
  /\ snd (fst (ttr_bands ttr)) = ttr.
Proof.
  unfold ttr_bands, lower_bands.
  repeat match goal with
         | |- context [if ?b then _ else _] => destruct b
         end; simpl; auto 10.
Qed.

(** X12: when the lexical-richness object is built and its [ttr] property
    raises, [compute_ttr_score] returns; the ratio it reports is the one of
    the [word_list] tokens, distinct over total, which lies between 0 and 1,
    and the score is one of 2, 4, 6, 8, 10. *)
Theorem compute_ttr_score_fallback (caps : capabilities) (text : string)
  (lex : lex_t caps) (e : exn) :
  LexicalRichness caps text = Ok lex ->
  lex_ttr caps lex = Raise e ->
  exists sc q fb,
    compute_ttr_score caps text = Ok (sc, q, fb)
    /\ ttr_fallback text = Ok q
    /\ (0 <= q <= 1)%Q
    /\ In sc [2; 4; 6; 8; 10].
Proof.
  intros Hl Ht. destruct (ttr_fallback_range text) as (q & Hq & Hr).
  unfold compute_ttr_score. rewrite Hl. cbn [bind]. rewrite Ht.
  cbn [try_except]. rewrite Hq. cbn [bind].
  pose proof (ttr_bands_score q) as [Hs Hv].
  destruct (ttr_bands q) as [[sc q'] fb]. cbn [fst snd] in *. subst q'.
  exists sc, q, fb. auto.
Qed.

Lemma compute_ttr_score_fallback_witness :
  exists sc q fb,
    compute_ttr_score heuristic_caps "" = Ok (sc, q, fb)
    /\ ttr_fallback "" = Ok q
    /\ (0 <= q <= 1)%Q
    /\ In sc [2; 4; 6; 8; 10].
Proof.
  exact (compute_ttr_score_fallback heuristic_caps "" tt ZeroDivisionError
           eq_refl eq_refl).
Defined.

(** ** Filler rate: the threshold in whole numbers *)

Lemma rate_le_3 (c t : nat) :
  t <> O ->
  (Float.of_nat c / Float.of_nat t * 100 <= 3)%Q <-> (100 * c <= 3 * t)%nat.
Proof.
  intros Ht.
  assert (Float.of_nat c / Float.of_nat t * 100
          == Float.of_nat (100 * c) / Float.of_nat t)%Q as E.
  { unfold Float.of_nat. rewrite Nat2Z.inj_mul, inject_Z_mult.
    change (inject_Z (Z.of_nat 100)) with 100%Q. field.
    apply (of_nat_nonzero t Ht). }
  rewrite E. split; intros H.
  - apply Qmult_le_compat_r with (z := Float.of_nat t) in H;
      [|apply of_nat_nonneg].
    rewrite Qmult_comm, Qmult_div_r in H by (apply of_nat_nonzero, Ht).
    unfold Float.of_nat in H.
    change 3%Q with (inject_Z 3) in H.
    rewrite <- inject_Z_mult, <- Zle_Qle in H. lia.
  - apply Qle_shift_div_r; [apply of_nat_pos, Ht|].
    unfold Float.of_nat. change 3%Q with (inject_Z 3).
    rewrite <- inject_Z_mult, <- Zle_Qle. lia.
Qed.

(** X13: the filler rate is count / total * 100 with total at least 1, and
    [compute_filler_rate_score] returns (15, rate, "Clear") exactly when
    100 * count <= 3 * total; otherwise the call yields [None]. *)
Theorem compute_filler_rate_score_threshold (text : string) :
  let count := filler_count text in
  let total := len_or_1 (List.length (word_list text)) in
  exists rate,
    filler_rate text = Ok rate
    /\ (rate == Float.of_nat count / Float.of_nat total * 100)%Q
    /\ compute_filler_rate_score text
       = Ok (if (100 * count <=? 3 * total)%nat
             then Some (15, rate, "Clear") else None).
Proof.
  cbn zeta.
  destruct (filler_rate_returns text) as (rate & Hrate & Hpos).
  exists rate. split; [exact Hrate|].
  assert (rate == Float.of_nat (filler_count text)
                  / Float.of_nat (len_or_1 (List.length (word_list text)))
                  * 100)%Q as Hval.
  { pose proof Hrate as Hr. unfold filler_rate in Hr.
    rewrite div_ok in Hr by (apply of_nat_nonzero, len_or_1_pos).
    cbn [bind] in Hr.
    assert (rate
            = Float.mul
                (Qred (Float.of_nat (filler_count text)
                       / Float.of_nat
                           (len_or_1 (List.length (word_list text)))))
                100) as -> by congruence.
    unfold Float.mul. rewrite !Qred_correct. reflexivity. }
  split; [exact Hval|].
  unfold compute_filler_rate_score. rewrite Hrate. cbn [bind].
  unfold Float.within.
  apply leb_true in Hpos. rewrite Hpos. cbn [andb].
  destruct (100 * filler_count text
            <=? 3 * len_or_1 (List.length (word_list text)))%nat eqn:E.
  - apply Nat.leb_le in E. apply rate_le_3 in E; [|apply len_or_1_pos].
    rewrite <- Hval in E. apply leb_true in E. rewrite E. reflexivity.
  - destruct (Float.leb rate 3) eqn:E3; [|reflexivity].
    apply leb_true in E3. rewrite Hval in E3.
    apply rate_le_3 in E3; [|apply len_or_1_pos].
    apply Nat.leb_le in E3. congruence.
Qed.

(** ** The caller: the report's wpm *)

Lemma round_half_even_nonneg (q : Q) :
  (0 <= q)%Q -> 0 <= Float.round_half_even q.
Proof.
  intros Hq. unfold Float.round_half_even.
  pose proof (Qfloor_resp_le 0 q Hq) as Hf.
  change (Qfloor 0) with 0 in Hf.
  repeat match goal with
         | |- context [if ?b then _ else _] => destruct b
         end; lia.
Qed.

Lemma round2_nonneg (q : Q) : (0 <= q)%Q -> (0 <= Float.round2 q)%Q.
Proof.
  intros Hq. unfold Float.round2. rewrite Qred_correct.
  apply Qle_shift_div_l; [reflexivity|]. rewrite Qmult_0_l.
  change 0%Q with (inject_Z 0). rewrite <- Zle_Qle.
  apply round_half_even_nonneg.
  apply Qmult_le_0_compat; [exact Hq | discriminate].
Qed.

Lemma report_wpm_positive_duration (n : nat) (dur : Q) :
  (0 < dur)%Q ->
  exists q, report_wpm n (Some dur) = Ok q /\ (0 <= q)%Q.
Proof.
  intros Hd. unfold report_wpm, not_duration.
  destruct (Qeq_bool dur 0) eqn:E.
  { apply Qeq_bool_iff in E. rewrite E in Hd. discriminate Hd. }
  rewrite div_ok by (intros H0; rewrite H0 in Hd; discriminate Hd).
  cbn [bind]. eexists. split; [reflexivity|].
  apply round2_nonneg. unfold Float.mul. rewrite !Qred_correct.
  apply Qmult_le_0_compat; [|discriminate].
  apply Qle_shift_div_l; [exact Hd|]. rewrite Qmult_0_l.
  apply of_nat_nonneg.
Qed.

(** X14: called through the page of [app.py], which passes [None] for a
    duration that is not positive, the aggregator always returns and the
    report's wpm is never negative; it is 120 for every duration <= 0. *)
Theorem app_score_wpm (transcript : string) (duration : Q) :
  exists rep,
    app_score transcript duration = Ok rep
    /\ (0 <= wpm rep)%Q
    /\ ((duration <= 0)%Q -> wpm rep = 120%Q).
Proof.
  unfold app_score, app_duration.
  destruct (Float.leb duration 0) eqn:E.
  - destruct (score_transcript_returns transcript None)
      as (rep & Hrep & _ & _ & _ & Hw & _).
    exists rep. split; [exact Hrep|].
    cbn in Hw. injection Hw as Hw. rewrite <- Hw.
    split; [discriminate | reflexivity].
  - assert (0 < duration)%Q as Hd.
    { apply Qnot_le_lt. intros H. apply leb_true in H. congruence. }
    destruct (score_transcript_returns transcript (Some duration))
      as (rep & Hrep & _ & _ & _ & Hw & _).
    destruct (report_wpm_positive_duration
                (List.length (Str.split transcript)) duration Hd)
      as (q & Hq & Hpos).
    exists rep. split; [exact Hrep|].
    assert (wpm rep = q) as -> by congruence.
    split; [exact Hpos|]. intros H. exfalso. lra.
Qed.

Lemma app_score_wpm_witness :
  (-5 <= 0)%Q
  /\ exists rep, app_score "hi there" (-5)%Q = Ok rep /\ wpm rep = 120%Q.
Proof.
  split; [discriminate|].
  destruct (app_score_wpm "hi there" (-5)%Q) as (rep & Hrep & _ & Hw).
  exists rep. split; [exact Hrep|]. apply Hw. discriminate.
Defined.

(** ** Scores and weights *)

(** X15: the scores stay within the weights: the salutation score is one
    of 0, 2, 4, 5; the flow-order score is 0 or 5; when
    [compute_speech_rate] returns, its score is among 2, 6, 10, and the
    only exception it raises is the overflow of a word count too large for
    a float, never a division by zero; when [compute_ttr_score] returns,
    its score is among 2, 4, 6, 8, 10; when [compute_filler_rate_score]
    returns a triple, its score is 15. *)
Theorem evaluator_scores_within_weights (caps : capabilities)
  (text : string) (words : Z) (d : option Q) :
  In (fst (compute_salutation_score text)) [0; 2; 4; 5]
  /\ In (fst (compute_order_flow text)) [0; 5]
  /\ match compute_speech_rate words d with
     | Ok (sc, _, _) => In sc [2; 6; 10]
     | Raise e => e = OverflowError /\ Float.int_bound <= Z.abs words
     end
  /\ match compute_ttr_score caps text with
     | Ok (sc, _, _) => In sc [2; 4; 6; 8; 10]
     | Raise _ => True
     end
  /\ match compute_filler_rate_score text with
     | Ok (Some (sc, _, _)) => sc = 15
     | _ => True
     end.
Proof.
  split.
  { unfold compute_salutation_score.
    repeat match goal with
           | |- context [if ?b then _ else _] => destruct b
           end; simpl; auto 10. }
  split.
  { unfold compute_order_flow.
    repeat match goal with
           | |- context [match ?b with _ => _ end] => destruct b
           end; simpl; auto. }
  split.
  { unfold compute_speech_rate.
    destruct d as [dur|]; [|simpl; auto].
    destruct (Float.leb dur 0) eqn:E; [simpl; auto|].
    destruct (Float.of_int words) as [w|e] eqn:Ew; cbn [bind].
    - rewrite div_ok by (apply positive_not_zero, E). cbn [bind].
      repeat match goal with
             | |- context [if ?b then _ else _] => destruct b
             end; simpl; auto.
    - apply of_int_raises, Ew. }
  split.
  { unfold compute_ttr_score.
    destruct (LexicalRichness caps text) as [lex|e]; cbn [bind]; [|exact I].
    destruct (try_except (lex_ttr caps lex) (ttr_fallback text)) as [q|e];
      cbn [bind]; [|exact I].
    pose proof (ttr_bands_score q) as [Hs _].
    destruct (ttr_bands q) as [[sc q'] fb]. exact Hs. }
  unfold compute_filler_rate_score.
  destruct (filler_rate text) as [rate|e]; cbn [bind]; [|exact I].
  destruct (Float.within 0 rate 3); exact I || reflexivity.
Qed.
